(** * Raysect observers: the RGB accumulation pipeline and the orthographic camera

    A shallow embedding of
      - [raysect/optical/observer/pipeline2d.py]  (class [RGBPipeline2D])
      - [raysect/optical/observer/orthographic.py] (class [OrthographicCamera])

    Conventions of the embedding.
      - Python floats are idealised as rationals ([Q]); Python integers are [Z];
        sizes of arrays and sample counts that Python refuses when negative are [nat].
      - A method is a computation in a state-and-exception monad: it receives the
        object (and the outside world) and returns either a value or the raised
        exception, together with the state reached at that point.
      - A numpy array is a shape and an item function; indexing follows numpy
        (negative indices wrap, other out-of-range indices raise [IndexError]).
      - Calls into the outside world (matplotlib, [time()], [print], constructors)
        append to a chronological event trace. *)

From Stdlib Require Import String QArith ZArith List Bool Lia Arith.
Import ListNotations.

Set Implicit Arguments.
Open Scope Q_scope.

(** ** Exceptions and the state-and-exception monad *)

Inductive exn : Type :=
| RuntimeError (msg : string)
| ValueError (msg : string)
| IndexError
| AttributeError
| TypeError
| ZeroDivisionError.

Inductive result (A : Type) : Type :=
| Ok (a : A)
| Raise (e : exn).
Arguments Ok {A} a.
Arguments Raise {A} e.

Definition M (S A : Type) : Type := S -> result A * S.

Definition ret {S A} (a : A) : M S A := fun s => (Ok a, s).

Definition raise {S A} (e : exn) : M S A := fun s => (Raise e, s).

Definition bind {S A B} (m : M S A) (k : A -> M S B) : M S B :=
  fun s => match m s with
           | (Ok a, s') => k a s'
           | (Raise e, s') => (Raise e, s')
           end.

Definition get {S} : M S S := fun s => (Ok s, s).

Definition modify {S} (f : S -> S) : M S unit := fun s => (Ok tt, f s).

Declare Scope monad_scope.
Delimit Scope monad_scope with monad.
Notation "x <- m ;; k" := (bind m (fun x => k))
  (at level 61, m at next level, right associativity) : monad_scope.
Notation "m ;;; k" := (bind m (fun _ => k))
  (at level 61, right associativity) : monad_scope.
Open Scope monad_scope.

(** [for i in l: body(i)] *)
Fixpoint for_each {S I} (l : list I) (body : I -> M S unit) : M S unit :=
  match l with
  | [] => ret tt
  | i :: l' => body i ;;; for_each l' body
  end.

(** [range(n)] *)
Definition range (n : nat) : list nat := seq 0 n.

(** ** numpy arrays of rank three *)

Record ndarray (A : Type) : Type := mk_ndarray {
  shape : nat * nat * nat;
  item : nat -> nat -> nat -> A
}.
Arguments mk_ndarray {A} shape item.

Definition np_zeros {A} (zero : A) (sh : nat * nat * nat) : ndarray A :=
  mk_ndarray sh (fun _ _ _ => zero).

(** Index normalisation along one axis of length [n]. *)
Definition np_index (n : nat) (i : Z) : option nat :=
  if ((0 <=? i) && (i <? Z.of_nat n))%Z then Some (Z.to_nat i)
  else if ((- Z.of_nat n <=? i) && (i <? 0))%Z then Some (Z.to_nat (i + Z.of_nat n))
  else None.

Definition np_locate {A} (a : ndarray A) (x y c : Z) : option (nat * nat * nat) :=
  let '(n0, n1, n2) := shape a in
  match np_index n0 x, np_index n1 y, np_index n2 c with
  | Some i, Some j, Some k => Some (i, j, k)
  | _, _, _ => None
  end.

(** [a[x, y, c]] *)
Definition np_getitem {A} (a : ndarray A) (x y c : Z) : result A :=
  match np_locate a x y c with
  | Some (i, j, k) => Ok (item a i j k)
  | None => Raise IndexError
  end.

Definition cell_eqb (p q : nat * nat * nat) : bool :=
  let '(i, j, k) := p in
  let '(i', j', k') := q in
  (i =? i')%nat && (j =? j')%nat && (k =? k')%nat.

Definition store {A} (a : ndarray A) (p : nat * nat * nat) (v : A) : ndarray A :=
  mk_ndarray (shape a)
    (fun i j k => if cell_eqb (i, j, k) p then v else item a i j k).

(** [a[x, y, c] = v] *)
Definition np_setitem {A} (x y c : Z) (v : A) : M (ndarray A) unit :=
  fun a => match np_locate a x y c with
           | Some p => (Ok tt, store a p v)
           | None => (Raise IndexError, a)
           end.

(** [a[x, y, c] += v] *)
Definition np_iadd (x y c : Z) (v : Q) : M (ndarray Q) unit :=
  fun a => match np_getitem a x y c with
           | Ok old => np_setitem x y c (old + v) a
           | Raise e => (Raise e, a)
           end.

(** [np.transpose(a, (1, 0, 2))] *)
Definition np_transpose_102 {A} (a : ndarray A) : ndarray A :=
  let '(n0, n1, n2) := shape a in
  mk_ndarray (n1, n0, n2) (fun i j k => item a j i k).

(** ** The XYZ frame buffer ([Frame2D], from [raysect.optical.observer.frame]) *)

(** The statistic kept for one channel of one pixel. *)
Record Stat : Type := mk_Stat {
  st_mean : Q;
  st_variance : Q;
  st_samples : Z
}.

Record Frame2D : Type := mk_Frame2D {
  pixels : nat * nat;
  channels : nat;
  mean : ndarray Q;
  variance : ndarray Q;
  samples : ndarray Z
}.

(** Modelled from the spec: the constructor [Frame2D(pixels, channels)], whose
    source is not part of the observed files.  A new frame buffer holds a zero
    statistic (mean, variance and sample count) for every channel of every pixel. *)
Definition Frame2D_new (px : nat * nat) (ch : nat) : Frame2D :=
  let sh := (fst px, snd px, ch) in
  mk_Frame2D px ch (np_zeros 0 sh) (np_zeros 0 sh) (np_zeros 0%Z sh).

Definition stat_at (f : Frame2D) (i j k : nat) : Stat :=
  mk_Stat (item (mean f) i j k) (item (variance f) i j k) (item (samples f) i j k).

(** Modelled from the spec: the two-group statistical merge behind
    [Frame2D.combine_samples], whose source is not part of the observed files.
    The pooled mean weights the two group means by their counts; the pooled
    variance adds the within-group dispersion of both groups to their
    between-group dispersion around the pooled mean; the counts add. *)
Definition pooled_merge (s : Stat) (m v : Q) (n : Z) : Stat :=
  let nx := inject_Z (st_samples s) in
  let ny := inject_Z n in
  let nt := nx + ny in
  let mt := (nx * st_mean s + ny * m) / nt in
  let within := (nx - 1) * st_variance s + (ny - 1) * v in
  let between := nx * ((st_mean s - mt) * (st_mean s - mt))
                 + ny * ((m - mt) * (m - mt)) in
  mk_Stat mt ((within + between) / (nt - 1)) (st_samples s + n)%Z.

(** The frame buffer with the statistic of one cell replaced by its pooled merge
    with the group (mean [m], variance [v], count [n]). *)
Definition merge_cell (f : Frame2D) (cell : nat * nat * nat) (m v : Q) (n : Z)
    : Frame2D :=
  let '(i, j, k) := cell in
  let s := pooled_merge (stat_at f i j k) m v n in
  mk_Frame2D (pixels f) (channels f)
    (store (mean f) cell (st_mean s))
    (store (variance f) cell (st_variance s))
    (store (samples f) cell (st_samples s)).

(** Modelled from the spec: [Frame2D.combine_samples(x, y, channel, mean,
    variance, sample_count)], whose source is not part of the observed files,
    replaces in place the statistic of one channel of one pixel by its pooled
    merge with the given group. *)
Definition combine_samples (x y c : Z) (m v : Q) (n : Z) : M Frame2D unit :=
  fun f =>
    match np_locate (mean f) x y c with
    | Some cell => (Ok tt, merge_cell f cell m v n)
    | None => (Raise IndexError, f)
    end.

(** ** The outside world of the pipeline *)

Inductive event : Type :=
| EvFrame2D (px : nat * nat) (ch : nat)            (* Frame2D(pixels, channels=3) *)
| EvPrint (msg : string)                           (* print(...) *)
| EvImshowRGB (img : ndarray Q)                    (* figure 1: plt.imshow *)
| EvImshowError (img : nat -> nat -> Q)            (* figure 2: plt.imshow *)
| EvShow                                           (* plt.draw(); plt.show(); plt.pause(0.1) *)
| EvImsave (filename : string) (img : ndarray Q).  (* plt.imsave *)

Record World : Type := mk_World {
  ticks : nat;          (* number of calls to time() so far *)
  trace : list event    (* calls into the outside world, oldest first *)
}.

(** Number of completed display refreshes in a trace. *)
Fixpoint refreshes (t : list event) : nat :=
  match t with
  | [] => 0
  | EvShow :: t' => S (refreshes t')
  | _ :: t' => refreshes t'
  end.

(** Number of frame buffers constructed in a trace. *)
Fixpoint allocations (t : list event) : nat :=
  match t with
  | [] => 0
  | EvFrame2D _ _ :: t' => S (allocations t')
  | _ :: t' => allocations t'
  end.

(** ** The pipeline object *)

Record SpectralSlice : Type := mk_SpectralSlice {
  min_wavelength : Q;
  max_wavelength : Q;
  num_samples : Z
}.

Section Pipeline.

(** The k-th call of [time()] returns [clock k]. *)
Variable clock : nat -> Q.

(** [raysect.optical.colour]: colour-matching data of a slice and the XYZ to
    sRGB transform. *)
Variable CMF : Type.
Variable resample_ciexyz : Q -> Q -> Z -> CMF.
Variable ciexyz_to_srgb : Q -> Q -> Q -> Q * Q * Q.

(** [np.transpose(frame.error.mean(axis=2))], the uncertainty map of a frame. *)
Variable error_map : Frame2D -> nat -> nat -> Q.

Record RGBPipeline2D : Type := mk_RGBPipeline2D {
  sensitivity : Q;
  display_progress : bool;
  _display_timer : Q;
  display_update_time : Q;
  accumulate : bool;
  xyz_frame : option Frame2D;
  rgb_frame : option (ndarray Q);
  _working_mean : option (ndarray Q);
  _working_variance : option (ndarray Q);
  _resampled_xyz : option (list CMF);
  _samples : Z
}.

(** [RGBPipeline2D.__init__] *)
Definition __init__ (sensitivity : Q) (display_progress : bool)
    (display_update_time : Q) (accumulate : bool) : RGBPipeline2D :=
  mk_RGBPipeline2D sensitivity display_progress 0 display_update_time accumulate
    None None None None None 0%Z.

(** [RGBPipeline2D()] with the defaults of the signature. *)
Definition RGBPipeline2D_default : RGBPipeline2D := __init__ 1 true 5 false.

Definition set__display_timer (t : Q) (p : RGBPipeline2D) : RGBPipeline2D :=
  mk_RGBPipeline2D (sensitivity p) (display_progress p) t (display_update_time p)
    (accumulate p) (xyz_frame p) (rgb_frame p) (_working_mean p)
    (_working_variance p) (_resampled_xyz p) (_samples p).

Definition set_xyz_frame (f : option Frame2D) (p : RGBPipeline2D) : RGBPipeline2D :=
  mk_RGBPipeline2D (sensitivity p) (display_progress p) (_display_timer p)
    (display_update_time p) (accumulate p) f (rgb_frame p) (_working_mean p)
    (_working_variance p) (_resampled_xyz p) (_samples p).

Definition set_rgb_frame (a : option (ndarray Q)) (p : RGBPipeline2D) : RGBPipeline2D :=
  mk_RGBPipeline2D (sensitivity p) (display_progress p) (_display_timer p)
    (display_update_time p) (accumulate p) (xyz_frame p) a (_working_mean p)
    (_working_variance p) (_resampled_xyz p) (_samples p).

Definition set__working_mean (a : option (ndarray Q)) (p : RGBPipeline2D) : RGBPipeline2D :=
  mk_RGBPipeline2D (sensitivity p) (display_progress p) (_display_timer p)
    (display_update_time p) (accumulate p) (xyz_frame p) (rgb_frame p) a
    (_working_variance p) (_resampled_xyz p) (_samples p).

Definition set__working_variance (a : option (ndarray Q)) (p : RGBPipeline2D) : RGBPipeline2D :=
  mk_RGBPipeline2D (sensitivity p) (display_progress p) (_display_timer p)
    (display_update_time p) (accumulate p) (xyz_frame p) (rgb_frame p)
    (_working_mean p) a (_resampled_xyz p) (_samples p).

Definition set__resampled_xyz (l : option (list CMF)) (p : RGBPipeline2D) : RGBPipeline2D :=
  mk_RGBPipeline2D (sensitivity p) (display_progress p) (_display_timer p)
    (display_update_time p) (accumulate p) (xyz_frame p) (rgb_frame p)
    (_working_mean p) (_working_variance p) l (_samples p).

Definition set__samples (n : Z) (p : RGBPipeline2D) : RGBPipeline2D :=
  mk_RGBPipeline2D (sensitivity p) (display_progress p) (_display_timer p)
    (display_update_time p) (accumulate p) (xyz_frame p) (rgb_frame p)
    (_working_mean p) (_working_variance p) (_resampled_xyz p) n.

(** The state a method runs in: the pipeline object and the outside world. *)
Definition PState : Type := (RGBPipeline2D * World)%type.

Definition getattr {A} (field : RGBPipeline2D -> A) : M PState A :=
  fun s => (Ok (field (fst s)), s).

Definition setattr (upd : RGBPipeline2D -> RGBPipeline2D) : M PState unit :=
  fun s => (Ok tt, (upd (fst s), snd s)).

Definition emit (e : event) : M PState unit :=
  fun s => (Ok tt, (fst s, mk_World (ticks (snd s)) (trace (snd s) ++ [e]))).

(** [time()] *)
Definition time : M PState Q :=
  fun s => (Ok (clock (ticks (snd s))),
            (fst s, mk_World (S (ticks (snd s))) (trace (snd s)))).

(** In-place mutation of the object held in an attribute; [missing] is raised
    when the attribute is [None]. *)
Definition on_attr {A B} (field : RGBPipeline2D -> option A)
    (upd : option A -> RGBPipeline2D -> RGBPipeline2D) (missing : exn)
    (m : M A B) : M PState B :=
  fun s => match field (fst s) with
           | None => (Raise missing, s)
           | Some a => let '(r, a') := m a in (r, (upd (Some a') (fst s), snd s))
           end.

Definition on_xyz_frame {B} : M Frame2D B -> M PState B :=
  on_attr xyz_frame set_xyz_frame AttributeError.
Definition on_rgb_frame {B} : M (ndarray Q) B -> M PState B :=
  on_attr rgb_frame set_rgb_frame TypeError.
Definition on__working_mean {B} : M (ndarray Q) B -> M PState B :=
  on_attr _working_mean set__working_mean TypeError.
Definition on__working_variance {B} : M (ndarray Q) B -> M PState B :=
  on_attr _working_variance set__working_variance TypeError.

(** Reading from the object held in an attribute, which is left as it is;
    [missing] is raised when the attribute is [None]. *)
Definition read_attr {A B} (field : RGBPipeline2D -> option A) (missing : exn)
    (f : A -> result B) : M PState B :=
  fun s => match field (fst s) with
           | None => (Raise missing, s)
           | Some a => (f a, s)
           end.

(** *** Methods of [RGBPipeline2D] *)

(** [RGBPipeline2D.display] *)
Definition display : M PState unit :=
  rgb <- getattr rgb_frame ;;
  match rgb with
  | None => raise (RuntimeError "No frame data to display.")
  | Some a =>
      emit (EvImshowRGB (np_transpose_102 a)) ;;;
      f <- getattr xyz_frame ;;
      match f with
      | None => raise AttributeError
      | Some f => emit (EvImshowError (error_map f)) ;;; emit EvShow
      end
  end.

(** [RGBPipeline2D.save] *)
Definition save (filename : string) : M PState unit :=
  rgb <- getattr rgb_frame ;;
  match rgb with
  | None => raise (RuntimeError "No frame data to save.")
  | Some a => emit (EvImsave filename (np_transpose_102 a))
  end.

(** The body of the two loops of [_generate_srgb_frame]. *)
Definition srgb_pixel (ix iy : nat) : M PState unit :=
  let x := Z.of_nat ix in
  let y := Z.of_nat iy in
  sens <- getattr sensitivity ;;
  m0 <- read_attr xyz_frame AttributeError (fun f => np_getitem (mean f) x y 0) ;;
  m1 <- read_attr xyz_frame AttributeError (fun f => np_getitem (mean f) x y 1) ;;
  m2 <- read_attr xyz_frame AttributeError (fun f => np_getitem (mean f) x y 2) ;;
  let rgb := ciexyz_to_srgb (m0 * sens) (m1 * sens) (m2 * sens) in
  on_rgb_frame (np_setitem x y 0 (fst (fst rgb))) ;;;
  on_rgb_frame (np_setitem x y 1 (snd (fst rgb))) ;;;
  on_rgb_frame (np_setitem x y 2 (snd rgb)).

(** [RGBPipeline2D._generate_srgb_frame] *)
Definition _generate_srgb_frame : M PState unit :=
  rgb <- getattr rgb_frame ;;
  match rgb with
  | None => raise AttributeError
  | Some a =>
      let '(nx, ny, _) := shape a in
      for_each (range nx) (fun ix =>
        for_each (range ny) (fun iy => srgb_pixel ix iy))
  end.

(** [RGBPipeline2D._start_display] *)
Definition _start_display : M PState unit :=
  setattr (set__display_timer 0) ;;;
  dp <- getattr display_progress ;;
  if dp then
    display ;;;
    t <- time ;;
    setattr (set__display_timer t)
  else ret tt.

(** [RGBPipeline2D._update_display]; [time()] is only read when
    [display_progress] holds, as [and] short-circuits. *)
Definition _update_display : M PState unit :=
  dp <- getattr display_progress ;;
  if dp then
    now <- time ;;
    timer <- getattr _display_timer ;;
    interval <- getattr display_update_time ;;
    if Qlt_le_dec interval (now - timer) then
      emit (EvPrint "RGBPipeline2D updating display...") ;;;
      _generate_srgb_frame ;;;
      display ;;;
      t <- time ;;
      setattr (set__display_timer t)
    else ret tt
  else ret tt.

Definition pixels_eqb (p q : nat * nat) : bool :=
  (fst p =? fst q)%nat && (snd p =? snd q)%nat.

(** The condition of the [if] in [initialise]:
    [not self.accumulate or self.xyz_frame is None or self.xyz_frame.pixels != pixels] *)
Definition must_allocate (p : RGBPipeline2D) (px : nat * nat) : bool :=
  negb (accumulate p)
  || match xyz_frame p with
     | None => true
     | Some f => negb (pixels_eqb (pixels f) px)
     end.

(** [RGBPipeline2D.initialise] *)
Definition initialise (px : nat * nat) (pixel_samples : Z)
    (spectral_slices : list SpectralSlice) : M PState unit :=
  p <- get ;;
  (if must_allocate (fst p) px then
     emit (EvFrame2D px 3) ;;;
     setattr (set_xyz_frame (Some (Frame2D_new px 3))) ;;;
     setattr (set_rgb_frame (Some (np_zeros 0 (fst px, snd px, 3%nat))))
   else ret tt) ;;;
  setattr (set__working_mean (Some (np_zeros 0 (fst px, snd px, 3%nat)))) ;;;
  setattr (set__working_variance (Some (np_zeros 0 (fst px, snd px, 3%nat)))) ;;;
  setattr (set__resampled_xyz (Some (map
    (fun s => resample_ciexyz (min_wavelength s) (max_wavelength s) (num_samples s))
    spectral_slices))) ;;;
  setattr (set__samples pixel_samples) ;;;
  _start_display.

(** A packed result: the means and the variances of the three channels. *)
Definition packed : Type := ((Q * Q * Q) * (Q * Q * Q))%type.

Definition ch0 (t : Q * Q * Q) : Q := fst (fst t).
Definition ch1 (t : Q * Q * Q) : Q := snd (fst t).
Definition ch2 (t : Q * Q * Q) : Q := snd t.

(** [RGBPipeline2D.update] *)
Definition update (pixel_id : Z * Z) (packed_result : packed) (slice_id : Z)
    : M PState unit :=
  let '(x, y) := pixel_id in
  let '(mean, variance) := packed_result in
  on__working_mean (np_iadd x y 0 (ch0 mean)) ;;;
  on__working_mean (np_iadd x y 1 (ch1 mean)) ;;;
  on__working_mean (np_iadd x y 2 (ch2 mean)) ;;;
  on__working_variance (np_iadd x y 0 (ch0 variance)) ;;;
  on__working_variance (np_iadd x y 1 (ch1 variance)) ;;;
  on__working_variance (np_iadd x y 2 (ch2 variance)) ;;;
  _update_display.

(** One [combine_samples] statement of [finalise]: the receiver is looked up
    first, then the arguments are evaluated from left to right. *)
Definition finalise_channel (x y : nat) (c : Z) : M PState unit :=
  read_attr xyz_frame AttributeError (fun _ => Ok tt) ;;;
  m <- read_attr _working_mean TypeError
         (fun a => np_getitem a (Z.of_nat x) (Z.of_nat y) c) ;;
  v <- read_attr _working_variance TypeError
         (fun a => np_getitem a (Z.of_nat x) (Z.of_nat y) c) ;;
  n <- getattr _samples ;;
  on_xyz_frame (combine_samples (Z.of_nat x) (Z.of_nat y) c m v n).

(** [self.xyz_frame.pixels] *)
Definition frame_pixels : M PState (nat * nat) :=
  read_attr xyz_frame AttributeError (fun f => Ok (pixels f)).

(** [RGBPipeline2D.finalise] *)
Definition finalise : M PState unit :=
  px <- frame_pixels ;;
  for_each (range (fst px)) (fun x =>
    px <- frame_pixels ;;
    for_each (range (snd px)) (fun y =>
      finalise_channel x y 0 ;;;
      finalise_channel x y 1 ;;;
      finalise_channel x y 2)) ;;;
  _generate_srgb_frame ;;;
  dp <- getattr display_progress ;;
  if dp then display else ret tt.

End Pipeline.

(** ** The orthographic camera *)

(** Objects built during ray generation carry the identity ([oid]) they were
    allocated at, so that sharing between rays can be stated. *)
Record Point : Type := mk_Point {
  pt_oid : nat;
  pt_x : Q;
  pt_y : Q;
  pt_z : Q
}.

Record Vector : Type := mk_Vector {
  vec_oid : nat;
  vec_x : Q;
  vec_y : Q;
  vec_z : Q
}.

(** The only affine matrices built by the camera are translations. *)
Inductive AffineMatrix : Type :=
| translate (tx ty tz : Q).

(** [point_generator.Rectangle(width, height)] and [vector_generators.SingleRay()],
    as configured objects. *)
Record Rectangle : Type := mk_Rectangle {
  rect_width : Q;
  rect_height : Q
}.

Inductive SingleRay : Type :=
| mk_SingleRay.

Section Camera.

(** The state of the random source the point generator draws from. *)
Variable RNG : Type.

(** Calling the generators: [Rectangle(w, h)(n)] and [SingleRay()(n)]. *)
Variable Rectangle_call : Rectangle -> nat -> RNG -> list Point * RNG.
Variable SingleRay_call : SingleRay -> nat -> RNG -> list Vector * RNG.

(** The parameters a ray template carries (wavelength range, depth limits). *)
Variable RayParams : Type.

(** The validation done by the [pixels] setter of the base class [Camera]. *)
Variable valid_pixels : nat * nat -> bool.

Record Ray : Type := mk_Ray {
  ray_oid : nat;
  origin : Point;
  direction : Vector;
  params : RayParams
}.

Record OrthographicCamera : Type := mk_OrthographicCamera {
  _pixels : nat * nat;
  pixel_samples : nat;
  sub_sample : bool;
  _width : Q;
  image_delta : Q;
  image_start_x : Q;
  image_start_y : Q;
  _point_generator : Rectangle;
  _vector_generator : SingleRay
}.

Definition set__pixels (px : nat * nat) (c : OrthographicCamera) : OrthographicCamera :=
  mk_OrthographicCamera px (pixel_samples c) (sub_sample c) (_width c)
    (image_delta c) (image_start_x c) (image_start_y c)
    (_point_generator c) (_vector_generator c).

Definition set_sub_sample (b : bool) (c : OrthographicCamera) : OrthographicCamera :=
  mk_OrthographicCamera (_pixels c) (pixel_samples c) b (_width c)
    (image_delta c) (image_start_x c) (image_start_y c)
    (_point_generator c) (_vector_generator c).

Definition set__width (w : Q) (c : OrthographicCamera) : OrthographicCamera :=
  mk_OrthographicCamera (_pixels c) (pixel_samples c) (sub_sample c) w
    (image_delta c) (image_start_x c) (image_start_y c)
    (_point_generator c) (_vector_generator c).

Definition set_geometry (d sx sy : Q) (c : OrthographicCamera) : OrthographicCamera :=
  mk_OrthographicCamera (_pixels c) (pixel_samples c) (sub_sample c) (_width c)
    d sx sy (_point_generator c) (_vector_generator c).

Definition set_generators (pg : Rectangle) (vg : SingleRay) (c : OrthographicCamera)
    : OrthographicCamera :=
  mk_OrthographicCamera (_pixels c) (pixel_samples c) (sub_sample c) (_width c)
    (image_delta c) (image_start_x c) (image_start_y c) pg vg.

(** An integer used in float arithmetic. *)
Definition of_int (n : nat) : Q := inject_Z (Z.of_nat n).

(** [OrthographicCamera._update_image_geometry]; the three assignments run in
    order, and the division raises when [self._pixels[0]] is zero. *)
Definition _update_image_geometry : M OrthographicCamera unit :=
  c <- get ;;
  (if (fst (_pixels c) =? 0)%nat then raise ZeroDivisionError
   else modify (fun c => set_geometry (_width c / of_int (fst (_pixels c)))
                           (image_start_x c) (image_start_y c) c)) ;;;
  modify (fun c => set_geometry (image_delta c)
                     ((1 # 2) * of_int (fst (_pixels c)) * image_delta c)
                     (image_start_y c) c) ;;;
  modify (fun c => set_geometry (image_delta c) (image_start_x c)
                     ((1 # 2) * of_int (snd (_pixels c)) * image_delta c) c).

(** Modelled from the spec: the [pixels] setter of the base class [Camera], whose
    source is not part of the observed files: a validated setter that stores the
    pair in [_pixels] (the attribute the getter of this class reads). *)
Definition Camera_pixels_fset (px : nat * nat) : M OrthographicCamera unit :=
  if valid_pixels px then modify (set__pixels px)
  else raise (ValueError "invalid pixel dimensions").

(** [OrthographicCamera.pixels] (setter) *)
Definition pixels_setter (px : nat * nat) : M OrthographicCamera unit :=
  Camera_pixels_fset px ;;;
  _update_image_geometry.

(** [OrthographicCamera.width] (setter) *)
Definition width_setter (width : Q) : M OrthographicCamera unit :=
  if Qle_bool width 0 then
    raise (ValueError "width can not be less than or equal to 0 meters.")
  else
    modify (set__width width) ;;;
    _update_image_geometry.

(** Modelled from the spec: the part of [Camera.__init__] (base class, source not
    part of the observed files) that this class relies on: it stores the pixel
    dimensions and the number of samples per pixel.  Attributes that are not yet
    assigned at this point are shown as zero; nothing reads them before they are
    assigned. *)
Definition Camera___init__ (px : nat * nat) (n : nat) : OrthographicCamera :=
  mk_OrthographicCamera px n false 0 0 0 0 (mk_Rectangle 0 0) mk_SingleRay.

(** [OrthographicCamera.__init__] *)
Definition OrthographicCamera___init__ (px : nat * nat) (width : Q)
    (n : nat) (sub : bool) : result OrthographicCamera * OrthographicCamera :=
  (modify (set_sub_sample sub) ;;;
   width_setter width ;;;
   _update_image_geometry ;;;
   c <- get ;;
   modify (set_generators (mk_Rectangle (image_delta c) (image_delta c)) mk_SingleRay) ;;;
   get) (Camera___init__ px n).

(** *** Ray generation *)

(** Objects are allocated at consecutive identities; the random source is only
    touched by the generators. *)
Record CamWorld : Type := mk_CamWorld {
  rng : RNG;
  next_oid : nat
}.

(** Allocation of a new object. *)
Definition alloc : M CamWorld nat :=
  fun w => (Ok (next_oid w), mk_CamWorld (rng w) (S (next_oid w))).

Definition draw {A} (g : RNG -> list A * RNG) : M CamWorld (list A) :=
  fun w => let '(l, r) := g (rng w) in (Ok l, mk_CamWorld r (next_oid w)).

(** Modelled from the spec: [Point.transform(m)] (raysect.core, source not part
    of the observed files) returns a new point, moved by the translation. *)
Definition Point_transform (p : Point) (m : AffineMatrix) : M CamWorld Point :=
  let '(translate tx ty tz) := m in
  o <- alloc ;;
  ret (mk_Point o (pt_x p + tx) (pt_y p + ty) (pt_z p + tz)).

(** Modelled from the spec: [Vector.transform(m)] returns a new vector; a
    translation leaves a direction as it is. *)
Definition Vector_transform (v : Vector) (m : AffineMatrix) : M CamWorld Vector :=
  o <- alloc ;;
  ret (mk_Vector o (vec_x v) (vec_y v) (vec_z v)).

(** Modelled from the spec: [ray_template.copy(origin, direction)] returns a new
    ray with the given origin and direction and the parameters of the template. *)
Definition Ray_copy (template : Ray) (o : Point) (d : Vector) : M CamWorld Ray :=
  r <- alloc ;;
  ret (mk_Ray r o d (params template)).

(** [zip(a, b)] *)
Definition zip {A B} (a : list A) (b : list B) : list (A * B) := combine a b.

(** The loop of [_generate_rays]: [rays] is the list built so far. *)
Fixpoint assemble_rays (to_local : AffineMatrix) (ray_template : Ray)
    (pairs : list (Point * Vector)) (rays : list Ray) : M CamWorld (list Ray) :=
  match pairs with
  | [] => ret rays
  | (o, d) :: rest =>
      o' <- Point_transform o to_local ;;
      d' <- Vector_transform d to_local ;;
      r <- Ray_copy ray_template o' d' ;;
      assemble_rays to_local ray_template rest (rays ++ [r])
  end.

(** [OrthographicCamera._generate_rays] *)
Definition _generate_rays (self : OrthographicCamera) (ix iy : Z)
    (ray_template : Ray) : M CamWorld (list Ray) :=
  let pixel_x := image_start_x self - image_delta self * inject_Z ix in
  let pixel_y := image_start_y self - image_delta self * inject_Z iy in
  let to_local := translate pixel_x pixel_y 0 in
  origin_points <- draw (Rectangle_call (_point_generator self) (pixel_samples self)) ;;
  direction_vectors <- draw (SingleRay_call (_vector_generator self) (pixel_samples self)) ;;
  assemble_rays to_local ray_template (zip origin_points direction_vectors) [].

End Camera.

(** ** Concrete collaborators, used to run the model on examples *)

Module Fixture.

(** A clock that advances by three time units at each reading. *)
Definition clock (k : nat) : Q := 3 * inject_Z (Z.of_nat k).

Definition resample_ciexyz (lo hi : Q) (n : Z) : Q * Q * Z := (lo, hi, n).

(** A linear colour transform. *)
Definition ciexyz_to_srgb (x y z : Q) : Q * Q * Q :=
  (3 * x - y, 2 * y - z, z).

(** Mean over the channels of variance / samples. *)
Definition error_map (f : Frame2D) (i j : nat) : Q :=
  (item (variance f) j i 0 / inject_Z (item (samples f) j i 0)
   + item (variance f) j i 1 / inject_Z (item (samples f) j i 1)
   + item (variance f) j i 2 / inject_Z (item (samples f) j i 2)) / 3.

(** A point generator whose k-th point lies at the far corner of the footprint
    scaled by k / (k + 1); the random state counts the points drawn. *)
Definition Rectangle_call (r : Rectangle) (n : nat) (s : nat) : list Point * nat :=
  (map (fun k => mk_Point 0
                   (rect_width r * of_int (s + k) / of_int (s + k + 1))
                   (rect_height r * of_int (s + k) / of_int (s + k + 1)) 0)
       (seq 0 n),
   (s + n)%nat).

(** The direction generator returns the same vector object [n] times. *)
Definition SingleRay_call (g : SingleRay) (n : nat) (s : nat) : list Vector * nat :=
  (repeat (mk_Vector 1 0 0 1) n, s).

Definition valid_pixels (px : nat * nat) : bool :=
  (0 <? fst px)%nat && (0 <? snd px)%nat.

Definition world0 : World := mk_World 0 [].

Definition camworld0 : CamWorld nat := mk_CamWorld 0%nat 100.

Definition template : Ray (nat * nat) :=
  mk_Ray 7 (mk_Point 8 0 0 0) (mk_Vector 9 0 0 1) (375, 740)%nat.

End Fixture.

(** ** Vocabulary of the properties *)

(** A property of the state that a computation keeps, whether it returns or
    raises. *)
Definition preserves {S A} (P : S -> Prop) (m : M S A) : Prop :=
  forall s, P s -> P (snd (m s)).

(** The arrays of a frame buffer cover its pixel grid, with three channels. *)
Definition frame_wf (f : Frame2D) : Prop :=
  shape (mean f) = (fst (pixels f), snd (pixels f), 3%nat)
  /\ shape (variance f) = (fst (pixels f), snd (pixels f), 3%nat)
  /\ shape (samples f) = (fst (pixels f), snd (pixels f), 3%nat).

(** The frame buffer and the display buffer exist together and agree on the
    pixel grid. *)
Definition coherent {CMF} (p : RGBPipeline2D CMF) : Prop :=
  match xyz_frame p, rgb_frame p with
  | None, None => True
  | Some f, Some a =>
      frame_wf f /\ shape a = (fst (pixels f), snd (pixels f), 3%nat)
  | _, _ => False
  end.

(** The state during a render pass over the pixel grid [px]: all four buffers
    exist and cover [px]. *)
Definition ready {CMF} (px : nat * nat) (p : RGBPipeline2D CMF) : Prop :=
  exists f a wm wv,
    xyz_frame p = Some f /\ rgb_frame p = Some a
    /\ _working_mean p = Some wm /\ _working_variance p = Some wv
    /\ pixels f = px /\ frame_wf f
    /\ shape a = (fst px, snd px, 3%nat)
    /\ shape wm = (fst px, snd px, 3%nat)
    /\ shape wv = (fst px, snd px, 3%nat).

(** A pixel grid coordinate of the grid [px]. *)
Definition in_grid (px : nat * nat) (pixel_id : Z * Z) : Prop :=
  (0 <= fst pixel_id < Z.of_nat (fst px))%Z
  /\ (0 <= snd pixel_id < Z.of_nat (snd px))%Z.

(** The [update] calls of a render pass, in the order they are made. *)
Definition update_call : Type := ((Z * Z) * packed * Z)%type.

Definition updates (clock : nat -> Q) {CMF}
    (ciexyz_to_srgb : Q -> Q -> Q -> Q * Q * Q)
    (error_map : Frame2D -> nat -> nat -> Q)
    (us : list update_call) : M (PState CMF) unit :=
  for_each us (fun u => update clock ciexyz_to_srgb error_map
                          (fst (fst u)) (snd (fst u)) (snd u)).

(** The three channels of the display buffer at one pixel. *)
Definition rgb_at (a : ndarray Q) (i j : nat) : Q * Q * Q :=
  (item a i j 0%nat, item a i j 1%nat, item a i j 2%nat).

(** The colour of one pixel, resolved from a frame buffer at a sensitivity. *)
Definition resolved (ciexyz_to_srgb : Q -> Q -> Q -> Q * Q * Q)
    (sens : Q) (f : Frame2D) (i j : nat) : Q * Q * Q :=
  ciexyz_to_srgb (item (mean f) i j 0%nat * sens)
                 (item (mean f) i j 1%nat * sens)
                 (item (mean f) i j 2%nat * sens).

(** The array after the three [+=] statements of [update] for one pixel. *)
Definition accumulated (a : ndarray Q) (i j : nat) (t : Q * Q * Q) : ndarray Q :=
  let a1 := store a (i, j, 0%nat) (item a i j 0%nat + ch0 t) in
  let a2 := store a1 (i, j, 1%nat) (item a1 i j 1%nat + ch1 t) in
  store a2 (i, j, 2%nat) (item a2 i j 2%nat + ch2 t).

(** The frame buffer after the three [combine_samples] statements of [finalise]
    for one pixel. *)
Definition merge_pixel (f : Frame2D) (wm wv : ndarray Q) (n : Z) (x y : nat)
    : Frame2D :=
  let f1 := merge_cell f (x, y, 0%nat) (item wm x y 0%nat) (item wv x y 0%nat) n in
  let f2 := merge_cell f1 (x, y, 1%nat) (item wm x y 1%nat) (item wv x y 1%nat) n in
  merge_cell f2 (x, y, 2%nat) (item wm x y 2%nat) (item wv x y 2%nat) n.

(** A call of a public method of the pipeline, and the pipeline driven through
    a sequence of calls; the driver goes on after an exception, with the state
    the failed call left behind. *)
Inductive call : Type :=
| CallInitialise (px : nat * nat) (pixel_samples : Z) (slices : list SpectralSlice)
| CallUpdate (pixel_id : Z * Z) (packed_result : packed) (slice_id : Z)
| CallFinalise
| CallSave (filename : string)
| CallDisplay.

Definition perform (clock : nat -> Q) {CMF}
    (resample_ciexyz : Q -> Q -> Z -> CMF)
    (ciexyz_to_srgb : Q -> Q -> Q -> Q * Q * Q)
    (error_map : Frame2D -> nat -> nat -> Q)
    (c : call) : M (PState CMF) unit :=
  match c with
  | CallInitialise px n slices =>
      initialise clock resample_ciexyz error_map px n slices
  | CallUpdate pixel_id packed_result slice_id =>
      update clock ciexyz_to_srgb error_map pixel_id packed_result slice_id
  | CallFinalise => finalise ciexyz_to_srgb error_map
  | CallSave filename => save filename
  | CallDisplay => display error_map
  end.

Fixpoint run_calls (clock : nat -> Q) {CMF}
    (resample_ciexyz : Q -> Q -> Z -> CMF)
    (ciexyz_to_srgb : Q -> Q -> Q -> Q * Q * Q)
    (error_map : Frame2D -> nat -> nat -> Q)
    (cs : list call) (s : PState CMF) : PState CMF :=
  match cs with
  | [] => s
  | c :: cs' =>
      run_calls clock resample_ciexyz ciexyz_to_srgb error_map cs'
        (snd (perform clock resample_ciexyz ciexyz_to_srgb error_map c s))
  end.

Definition is_initialise (c : call) : bool :=
  match c with
  | CallInitialise _ _ _ => true
  | _ => false
  end.

(** The pipeline and the world after the assignments of [initialise], at the
    point where [_start_display] is called. *)
Definition initialised {CMF} (resample_ciexyz : Q -> Q -> Z -> CMF)
    (px : nat * nat) (n : Z) (slices : list SpectralSlice)
    (p : RGBPipeline2D CMF) : RGBPipeline2D CMF :=
  set__samples n
    (set__resampled_xyz
       (Some (map (fun s => resample_ciexyz (min_wavelength s)
                              (max_wavelength s) (num_samples s)) slices))
       (set__working_variance (Some (np_zeros 0 (fst px, snd px, 3%nat)))
          (set__working_mean (Some (np_zeros 0 (fst px, snd px, 3%nat)))
             (if must_allocate p px
              then set_rgb_frame (Some (np_zeros 0 (fst px, snd px, 3%nat)))
                     (set_xyz_frame (Some (Frame2D_new px 3)) p)
              else p)))).

Definition initialised_world {CMF} (px : nat * nat) (p : RGBPipeline2D CMF)
    (w : World) : World :=
  if must_allocate p px
  then mk_World (ticks w) (trace w ++ [EvFrame2D px 3])
  else w.

(** *** The camera *)

(** The derived image geometry agrees with the width and the pixel
    dimensions. *)
Definition geometry_consistent (c : OrthographicCamera) : Prop :=
  image_delta c = _width c / of_int (fst (_pixels c))
  /\ image_start_x c = (1 # 2) * of_int (fst (_pixels c)) * image_delta c
  /\ image_start_y c = (1 # 2) * of_int (snd (_pixels c)) * image_delta c.




(** Two cameras that agree on everything but the [sub_sample] flag. *)
Definition same_except_sub_sample (c1 c2 : OrthographicCamera) : Prop :=
  set_sub_sample true c1 = set_sub_sample true c2.

(** The identities of the objects a ray consists of. *)
Definition ray_oids {RayParams} (r : Ray RayParams) : list nat :=
  [ray_oid r; pt_oid (origin r); vec_oid (direction r)].

(** A ray is built from one (origin, direction) pair, moved by the pixel
    translation, and carries the parameters of the template. *)
Definition built_from {RayParams} (tx ty tz : Q) (template : Ray RayParams)
    (pair : Point * Vector) (r : Ray RayParams) : Prop :=
  pt_x (origin r) = pt_x (fst pair) + tx
  /\ pt_y (origin r) = pt_y (fst pair) + ty
  /\ pt_z (origin r) = pt_z (fst pair) + tz
  /\ vec_x (direction r) = vec_x (snd pair)
  /\ vec_y (direction r) = vec_y (snd pair)
  /\ vec_z (direction r) = vec_z (snd pair)
  /\ params r = params template.

(** The rays the loop of [_generate_rays] appends when objects are allocated
    from identity [next] on. *)
Fixpoint built_rays {RayParams} (tx ty tz : Q) (template : Ray RayParams)
    (pairs : list (Point * Vector)) (next : nat) : list (Ray RayParams) :=
  match pairs with
  | [] => []
  | (o, d) :: rest =>
      mk_Ray (S (S next))
        (mk_Point next (pt_x o + tx) (pt_y o + ty) (pt_z o + tz))
        (mk_Vector (S next) (vec_x d) (vec_y d) (vec_z d))
        (params template)
      :: built_rays tx ty tz template rest (S (S (S next)))
  end.

(** ** The remaining methods of the two classes *)

(** [l[i]] on a Python list: negative indices count from the end, other
    out-of-range indices raise [IndexError]. *)
Definition list_getitem {A} (l : list A) (i : Z) : result A :=
  match np_index (length l) i with
  | Some k =>
      match nth_error l k with
      | Some a => Ok a
      | None => Raise IndexError
      end
  | None => Raise IndexError
  end.

Module Processor.
Section Processor.

(** [raysect.optical.colour.spectrum_to_ciexyz] and the class [Pixel] of
    [raysect.optical.observer.frame], whose sources are not part of the
    observed files: taken as they are used. *)
Variable CMF : Type.
Variable Spectrum : Type.
Variable spectrum_to_ciexyz : Spectrum -> CMF -> Q * Q * Q.
Variable Pixel : Type.
Variable Pixel_new : nat -> Pixel.                       (* Pixel(channels=n) *)
Variable Pixel_add_sample : nat -> Q -> Pixel -> Pixel.  (* pixel.add_sample(c, v) *)
Variable Pixel_mean : Pixel -> nat -> Q.                 (* pixel.mean[c] *)
Variable Pixel_variance : Pixel -> nat -> Q.             (* pixel.variance[c] *)

Record XYZPixelProcessor : Type := mk_XYZPixelProcessor {
  _resampled_xyz : CMF;
  _xyz : Pixel
}.

(** [XYZPixelProcessor.__init__] *)
Definition __init__ (resampled_xyz : CMF) : XYZPixelProcessor :=
  mk_XYZPixelProcessor resampled_xyz (Pixel_new 3).

(** [XYZPixelProcessor.add_sample] *)
Definition add_sample (spectrum : Spectrum) : M XYZPixelProcessor unit :=
  self <- get ;;
  let '(x, y, z) := spectrum_to_ciexyz spectrum (_resampled_xyz self) in
  modify (fun self => mk_XYZPixelProcessor (_resampled_xyz self)
                        (Pixel_add_sample 0 x (_xyz self))) ;;;
  modify (fun self => mk_XYZPixelProcessor (_resampled_xyz self)
                        (Pixel_add_sample 1 y (_xyz self))) ;;;
  modify (fun self => mk_XYZPixelProcessor (_resampled_xyz self)
                        (Pixel_add_sample 2 z (_xyz self))).

(** [XYZPixelProcessor.pack_results] *)
Definition pack_results (self : XYZPixelProcessor) : packed :=
  ((Pixel_mean (_xyz self) 0, Pixel_mean (_xyz self) 1, Pixel_mean (_xyz self) 2),
   (Pixel_variance (_xyz self) 0, Pixel_variance (_xyz self) 1,
    Pixel_variance (_xyz self) 2)).

End Processor.
End Processor.

(** [RGBPipeline2D.pixel_processor] *)
Definition pixel_processor {CMF Pixel} (Pixel_new : nat -> Pixel) (slice_id : Z)
    : M (PState CMF) (Processor.XYZPixelProcessor CMF Pixel) :=
  read_attr (@_resampled_xyz CMF) TypeError
    (fun l => match list_getitem l slice_id with
              | Ok cmf => Ok (Processor.__init__ Pixel_new cmf)
              | Raise e => Raise e
              end).

(** [OrthographicCamera.pixels] and [OrthographicCamera.width] (getters) *)
Definition pixels_getter (self : OrthographicCamera) : nat * nat := _pixels self.

Definition width_getter (self : OrthographicCamera) : Q := _width self.

(** ** Further vocabulary *)

(** Channel [k] of a triple. *)
Definition chan (k : nat) (t : Q * Q * Q) : Q :=
  match k with
  | 0%nat => ch0 t
  | 1%nat => ch1 t
  | _ => ch2 t
  end.

(** What the [update] calls [us], in their order, add to channel [k] of the
    pixel (i, j) of an entry that holds [start]: [sel] picks the means or the
    variances of a packed result. *)
Definition accumulate_calls (sel : packed -> Q * Q * Q) (i j k : nat)
    (us : list update_call) (start : Q) : Q :=
  fold_left
    (fun acc u =>
       if ((Z.to_nat (fst (fst (fst u))) =? i)
           && (Z.to_nat (snd (fst (fst u))) =? j))%nat
       then acc + chan k (sel (snd (fst u)))
       else acc)
    us start.

(** The call [u] is addressed to the pixel (i, j). *)
Definition addressed_to (i j : nat) (u : update_call) : bool :=
  ((Z.to_nat (fst (fst (fst u))) =? i)
   && (Z.to_nat (snd (fst (fst u))) =? j))%nat.

(** The packed results of the calls of [us] addressed to the pixel (i, j), in
    call order. *)
Definition results_at (i j : nat) (us : list update_call) : list packed :=
  map (fun u => snd (fst u)) (filter (addressed_to i j) us).

(** The rays [a] and [b] differ at most in the x and y coordinates of their
    origins: same identities, same height of the origin, same direction, same
    parameters. *)
Definition same_up_to_origin_xy {RayParams} (a b : Ray RayParams) : Prop :=
  ray_oid b = ray_oid a
  /\ pt_oid (origin b) = pt_oid (origin a)
  /\ pt_z (origin b) = pt_z (origin a)
  /\ direction b = direction a
  /\ params b = params a.
(** * Properties *)

(** A lemma depends on the section variables of its statement only. *)
Set Default Proof Using "Type".

(** ** The monad and its loops *)

Lemma bind_ok {S A B} (m : M S A) (k : A -> M S B) s a s' :
  m s = (Ok a, s') -> bind m k s = k a s'.
Proof. intros H. unfold bind. rewrite H. reflexivity. Qed.

(** Hoare-style rule for a loop over distinct indices: [P done] is the loop
    invariant after the indices [done] have been processed. *)
Lemma for_each_rule {S I} (P : list I -> S -> Prop) (body : I -> M S unit) :
  forall l done,
    NoDup (done ++ l) ->
    (forall d i s, P d s -> ~ In i d -> In i l ->
                   exists s', body i s = (Ok tt, s') /\ P (d ++ [i]) s') ->
    forall s, P done s ->
    exists s', for_each l body s = (Ok tt, s') /\ P (done ++ l) s'.
Proof.
  induction l as [|i l IH]; intros done Hnd Hbody s HP.
  - exists s. rewrite app_nil_r. split; [reflexivity | assumption].
  - assert (Hi : ~ In i done).
    { intros Hin. apply NoDup_remove_2 in Hnd. apply Hnd.
      apply in_or_app. left. assumption. }
    destruct (Hbody done i s HP Hi (or_introl eq_refl)) as (s1 & E1 & P1).
    replace (done ++ i :: l) with ((done ++ [i]) ++ l) in *
      by (rewrite <- app_assoc; reflexivity).
    destruct (IH (done ++ [i]) Hnd) with (s := s1) as (s2 & E2 & P2).
    + intros d j t Pd Hj Hin. apply Hbody; auto. right. assumption.
    + assumption.
    + exists s2. split; [| assumption].
      simpl. rewrite (bind_ok _ _ _ E1). assumption.
Qed.

Lemma in_range (n i : nat) : In i (range n) <-> (i < n)%nat.
Proof. unfold range. rewrite in_seq. lia. Qed.

Lemma NoDup_range (n : nat) : NoDup (range n).
Proof. apply seq_NoDup. Qed.

(** ** numpy indexing *)

Lemma np_index_of_nat (n i : nat) :
  (i < n)%nat -> np_index n (Z.of_nat i) = Some i.
Proof.
  intros H. unfold np_index.
  replace (0 <=? Z.of_nat i)%Z with true by (symmetry; apply Z.leb_le; lia).
  replace (Z.of_nat i <? Z.of_nat n)%Z with true by (symmetry; apply Z.ltb_lt; lia).
  simpl. rewrite Nat2Z.id. reflexivity.
Qed.

Lemma np_locate_of_nat {A} (a : ndarray A) (n0 n1 n2 i j k : nat) :
  shape a = (n0, n1, n2) -> (i < n0)%nat -> (j < n1)%nat -> (k < n2)%nat ->
  np_locate a (Z.of_nat i) (Z.of_nat j) (Z.of_nat k) = Some (i, j, k).
Proof.
  intros Hs Hi Hj Hk. unfold np_locate. rewrite Hs.
  rewrite !np_index_of_nat by assumption. reflexivity.
Qed.

Lemma np_locate_at {A} (a : ndarray A) (n0 n1 n2 i j k : nat) (c : Z) :
  shape a = (n0, n1, n2) -> (i < n0)%nat -> (j < n1)%nat -> (k < n2)%nat ->
  c = Z.of_nat k ->
  np_locate a (Z.of_nat i) (Z.of_nat j) c = Some (i, j, k).
Proof. intros Hs Hi Hj Hk ->. eapply np_locate_of_nat; eassumption. Qed.

Lemma np_locate_store {A} (a : ndarray A) p v x y c :
  np_locate (store a p v) x y c = np_locate a x y c.
Proof. reflexivity. Qed.

Lemma cell_eqb_eq (p q : nat * nat * nat) : cell_eqb p q = true <-> p = q.
Proof.
  destruct p as [[i j] k], q as [[i' j'] k']. unfold cell_eqb.
  rewrite !andb_true_iff, !Nat.eqb_eq. split.
  - intros [[-> ->] ->]. reflexivity.
  - intros H. inversion H. auto.
Qed.

Lemma cell_eqb_neq (p q : nat * nat * nat) : p <> q -> cell_eqb p q = false.
Proof.
  intros H. destruct (cell_eqb p q) eqn:E; [| reflexivity].
  apply cell_eqb_eq in E. contradiction.
Qed.

Lemma item_store_same {A} (a : ndarray A) i j k v :
  item (store a (i, j, k) v) i j k = v.
Proof. simpl. rewrite !Nat.eqb_refl. reflexivity. Qed.

Lemma item_store_other {A} (a : ndarray A) p i j k v :
  (i, j, k) <> p -> item (store a p v) i j k = item a i j k.
Proof.
  intros H. unfold store. cbn [item]. rewrite cell_eqb_neq by assumption.
  reflexivity.
Qed.

(** ** Frame rules: properties of the state that a computation keeps, whether it
    returns or raises *)

Lemma preserves_ret {S A} (P : S -> Prop) (a : A) : preserves P (ret a).
Proof. intros s H. exact H. Qed.

Lemma preserves_raise {S A} (P : S -> Prop) e : preserves P (@raise S A e).
Proof. intros s H. exact H. Qed.

Lemma preserves_get {S} (P : S -> Prop) : preserves P get.
Proof. intros s H. exact H. Qed.

Lemma preserves_bind {S A B} (P : S -> Prop) (m : M S A) (k : A -> M S B) :
  preserves P m -> (forall a, preserves P (k a)) -> preserves P (bind m k).
Proof.
  intros Hm Hk s Hs. unfold bind. specialize (Hm s Hs).
  destruct (m s) as [[a | e] s']; simpl in *.
  - apply Hk. assumption.
  - assumption.
Qed.

Lemma preserves_for_each {S I} (P : S -> Prop) (body : I -> M S unit) l :
  (forall i, preserves P (body i)) -> preserves P (for_each l body).
Proof.
  intros Hb. induction l as [| i l IH]; simpl.
  - apply preserves_ret.
  - apply preserves_bind; [apply Hb | intros _; exact IH].
Qed.

Section PipelineFrameRules.

Variable clock : nat -> Q.
Variable CMF : Type.
Variable P : PState CMF -> Prop.

Lemma preserves_getattr {A} (field : RGBPipeline2D CMF -> A) :
  preserves P (getattr field).
Proof. intros s H. exact H. Qed.

Lemma preserves_read_attr {A B} (field : RGBPipeline2D CMF -> option A) e
    (f : A -> result B) :
  preserves P (read_attr field e f).
Proof. intros s H. unfold read_attr. destruct (field (fst s)); exact H. Qed.

Lemma preserves_setattr upd :
  (forall p w, P (p, w) -> P (upd p, w)) -> preserves P (setattr upd).
Proof. intros Hu [p w] H. apply Hu. exact H. Qed.

Lemma preserves_on_attr {A B} (field : RGBPipeline2D CMF -> option A) upd e
    (m : M A B) :
  (forall p w a0 a, P (p, w) -> field p = Some a0 -> P (upd (Some a) p, w)) ->
  preserves P (on_attr field upd e m).
Proof.
  intros Hu [p w] H. unfold on_attr. simpl.
  destruct (field p) as [a |] eqn:E; [| exact H].
  destruct (m a) as [r a']. simpl. apply (Hu p w a a' H E).
Qed.

Lemma preserves_emit ev :
  (forall p w, P (p, w) -> P (p, mk_World (ticks w) (trace w ++ [ev]))) ->
  preserves P (emit ev).
Proof. intros Hu [p w] H. apply Hu. exact H. Qed.

Lemma preserves_time :
  (forall p w, P (p, w) -> P (p, mk_World (S (ticks w)) (trace w))) ->
  preserves P (time clock (CMF := CMF)).
Proof. intros Hu [p w] H. apply Hu. exact H. Qed.

End PipelineFrameRules.

(** ** The pipeline *)

Section PipelineTheory.

Variable clock : nat -> Q.
Variable CMF : Type.
Variable resample_ciexyz : Q -> Q -> Z -> CMF.
Variable ciexyz_to_srgb : Q -> Q -> Q -> Q * Q * Q.
Variable error_map : Frame2D -> nat -> nat -> Q.

Local Abbreviation Pipeline := (RGBPipeline2D CMF).
Local Abbreviation State := (PState CMF).

(** Applies the frame rules along the structure of a method. *)
Ltac frame_rules :=
  repeat first
    [ apply preserves_ret
    | apply preserves_raise
    | apply preserves_get
    | apply preserves_getattr
    | apply preserves_read_attr
    | apply preserves_bind; [| intros ?]
    | apply preserves_for_each; intros ?
    | apply preserves_setattr; intros ? ? ?
    | apply preserves_on_attr; intros ? ? ? ? ? ?
    | apply preserves_emit; intros ? ? ?
    | apply preserves_time; intros ? ? ?
    | match goal with
      | |- preserves _ (if ?b then _ else _) => destruct b
      | |- preserves _ (match ?o with _ => _ end) => destruct o
      end ].

(** Runs the first statement of a sequence when it evaluates by computation. *)
Ltac run_step :=
  erewrite bind_ok by reflexivity; cbv beta; cbn [fst snd ticks trace].

(** *** [display] and [save] *)

Lemma display_not_ready (p : Pipeline) (w : World) :
  rgb_frame p = None ->
  display error_map (p, w)
  = (Raise (RuntimeError "No frame data to display."), (p, w)).
Proof. intros H. unfold display, bind, getattr. simpl. rewrite H. reflexivity. Qed.

Lemma display_ready (p : Pipeline) (w : World) f a :
  xyz_frame p = Some f -> rgb_frame p = Some a ->
  display error_map (p, w)
  = (Ok tt, (p, mk_World (ticks w)
                  (trace w ++ [EvImshowRGB (np_transpose_102 a);
                               EvImshowError (error_map f); EvShow]))).
Proof.
  intros Hf Ha. unfold display, bind, getattr, emit. simpl.
  rewrite Ha. simpl. rewrite Hf. simpl. rewrite <- !app_assoc. reflexivity.
Qed.

Lemma save_not_ready (p : Pipeline) (w : World) filename :
  rgb_frame p = None ->
  save filename (p, w) = (Raise (RuntimeError "No frame data to save."), (p, w)).
Proof. intros H. unfold save, bind, getattr. simpl. rewrite H. reflexivity. Qed.

Lemma save_ready (p : Pipeline) (w : World) filename a :
  rgb_frame p = Some a ->
  save filename (p, w)
  = (Ok tt, (p, mk_World (ticks w)
                  (trace w ++ [EvImsave filename (np_transpose_102 a)]))).
Proof. intros H. unfold save, bind, getattr. simpl. rewrite H. reflexivity. Qed.

Lemma refreshes_app t1 t2 : refreshes (t1 ++ t2) = (refreshes t1 + refreshes t2)%nat.
Proof.
  induction t1 as [| e t1 IH]; [reflexivity |].
  destruct e; simpl; rewrite IH; reflexivity.
Qed.

Lemma allocations_app t1 t2 :
  allocations (t1 ++ t2) = (allocations t1 + allocations t2)%nat.
Proof.
  induction t1 as [| e t1 IH]; [reflexivity |].
  destruct e; simpl; rewrite IH; reflexivity.
Qed.

(** *** [_generate_srgb_frame] *)

Lemma srgb_pixel_spec (p : Pipeline) (w : World) f a ix iy nx ny :
  xyz_frame p = Some f -> rgb_frame p = Some a ->
  shape (mean f) = (nx, ny, 3%nat) -> shape a = (nx, ny, 3%nat) ->
  (ix < nx)%nat -> (iy < ny)%nat ->
  let rgb := resolved ciexyz_to_srgb (sensitivity p) f ix iy in
  srgb_pixel ciexyz_to_srgb ix iy (p, w)
  = (Ok tt,
     (set_rgb_frame
        (Some (store (store (store a (ix, iy, 0%nat) (fst (fst rgb)))
                            (ix, iy, 1%nat) (snd (fst rgb)))
                     (ix, iy, 2%nat) (snd rgb))) p, w)).
Proof.
  intros Hf Ha Hsf Hsa Hx Hy rgb.
  unfold srgb_pixel, bind, getattr, read_attr, on_rgb_frame, on_attr,
    np_getitem, np_setitem. simpl.
  rewrite Hf.
  rewrite (np_locate_at (mean f) (k := 0) (c := 0%Z) Hsf Hx Hy) by (lia || reflexivity).
  simpl. rewrite Hf.
  rewrite (np_locate_at (mean f) (k := 1) (c := 1%Z) Hsf Hx Hy) by (lia || reflexivity).
  simpl. rewrite Hf.
  rewrite (np_locate_at (mean f) (k := 2) (c := 2%Z) Hsf Hx Hy) by (lia || reflexivity).
  simpl. rewrite Ha.
  rewrite (np_locate_at a (k := 0) (c := 0%Z) Hsa Hx Hy) by (lia || reflexivity).
  simpl. rewrite np_locate_store.
  rewrite (np_locate_at a (k := 1) (c := 1%Z) Hsa Hx Hy) by (lia || reflexivity).
  simpl. rewrite !np_locate_store.
  rewrite (np_locate_at a (k := 2) (c := 2%Z) Hsa Hx Hy) by (lia || reflexivity).
  reflexivity.
Qed.

Lemma set_rgb_frame_same (p : Pipeline) a :
  rgb_frame p = Some a -> set_rgb_frame (Some a) p = p.
Proof. destruct p. simpl. intros ->. reflexivity. Qed.

Lemma rgb_at_store3 (a : ndarray Q) x y v0 v1 v2 i j :
  rgb_at (store (store (store a (x, y, 0%nat) v0) (x, y, 1%nat) v1)
                (x, y, 2%nat) v2) i j
  = if ((i =? x) && (j =? y))%nat then (v0, v1, v2) else rgb_at a i j.
Proof.
  unfold rgb_at, store. simpl.
  destruct (i =? x)%nat, (j =? y)%nat; reflexivity.
Qed.

Lemma generate_srgb_spec (p : Pipeline) (w : World) f a nx ny :
  xyz_frame p = Some f -> rgb_frame p = Some a ->
  shape (mean f) = (nx, ny, 3%nat) -> shape a = (nx, ny, 3%nat) ->
  exists a',
    _generate_srgb_frame ciexyz_to_srgb (p, w)
    = (Ok tt, (set_rgb_frame (Some a') p, w))
    /\ shape a' = (nx, ny, 3%nat)
    /\ forall i j, (i < nx)%nat -> (j < ny)%nat ->
         rgb_at a' i j = resolved ciexyz_to_srgb (sensitivity p) f i j.
Proof.
  intros Hf Ha Hsf Hsa.
  set (good := fun (a' : ndarray Q) i j =>
                 rgb_at a' i j = resolved ciexyz_to_srgb (sensitivity p) f i j).
  set (Pout := fun (done : list nat) (s : State) =>
    exists a', s = (set_rgb_frame (Some a') p, w) /\ shape a' = (nx, ny, 3%nat)
      /\ forall i j, In i done -> (j < ny)%nat -> good a' i j).
  assert (Hloop : exists s', for_each (range nx) (fun ix =>
              for_each (range ny) (fun iy => srgb_pixel ciexyz_to_srgb ix iy))
              (p, w) = (Ok tt, s') /\ Pout ([] ++ range nx) s').
  { apply (for_each_rule Pout).
    - apply NoDup_range.
    - intros dx ix s (a1 & -> & Hs1 & Hg1) _ Hix. apply in_range in Hix.
      set (Pin := fun (done : list nat) (s : State) =>
        exists a', s = (set_rgb_frame (Some a') p, w)
          /\ shape a' = (nx, ny, 3%nat)
          /\ (forall i j, In i dx -> (j < ny)%nat -> good a' i j)
          /\ (forall j, In j done -> good a' ix j)).
      destruct (for_each_rule Pin (fun iy => srgb_pixel ciexyz_to_srgb ix iy)
                  (range ny) [] (NoDup_range ny)) with
        (s := (set_rgb_frame (Some a1) p, w)) as (s2 & E2 & a2 & -> & Hs2 & Hg2 & Hh2).
      + intros dy iy s (a2 & -> & Hs2 & Hg2 & Hh2) _ Hiy. apply in_range in Hiy.
        eexists. split.
        * apply srgb_pixel_spec with (f := f) (nx := nx) (ny := ny);
            solve [ assumption | reflexivity ].
        * eexists. split; [reflexivity |]. split; [exact Hs2 |].
          split.
          -- intros i j Hi Hj. unfold good. rewrite rgb_at_store3.
             destruct ((i =? ix) && (j =? iy))%nat eqn:E.
             ++ apply andb_prop in E. destruct E as [E1 E2].
                apply Nat.eqb_eq in E1, E2. subst.
                simpl. destruct (resolved _ _ _ _ _) as [[? ?] ?]. reflexivity.
             ++ apply Hg2; assumption.
          -- intros j Hj. unfold good. rewrite rgb_at_store3.
             destruct ((ix =? ix) && (j =? iy))%nat eqn:E.
             ++ apply andb_prop in E. destruct E as [_ E2].
                apply Nat.eqb_eq in E2. subst.
                simpl. destruct (resolved _ _ _ _ _) as [[? ?] ?]. reflexivity.
             ++ apply Hh2. apply in_app_or in Hj. destruct Hj as [Hj | [Hj | []]];
                  [assumption |].
                subst. rewrite !Nat.eqb_refl in E. discriminate.
      + exists a1. repeat split; try assumption. intros j [].
      + exists (set_rgb_frame (Some a2) p, w). split; [exact E2 |].
        exists a2. split; [reflexivity |]. split; [assumption |].
        intros i j Hi Hj. apply in_app_or in Hi. destruct Hi as [Hi | [Hi | []]].
        * apply Hg2; assumption.
        * subst. apply Hh2. simpl. apply in_range. assumption.
    - exists a. split; [rewrite set_rgb_frame_same by assumption; reflexivity |].
      split; [assumption |]. intros i j []. }
  destruct Hloop as (s' & E & a' & -> & Hs' & Hg').
  exists a'. split.
  - unfold _generate_srgb_frame, bind, getattr. simpl. rewrite Ha, Hsa. exact E.
  - split; [assumption |]. intros i j Hi Hj. apply Hg'; [| assumption].
    simpl. apply in_range. assumption.
Qed.

(** *** [update] *)

Lemma np_locate_in_grid {A} (a : ndarray A) (px : nat * nat) (x y : Z) (k : nat) c :
  shape a = (fst px, snd px, 3%nat) -> in_grid px (x, y) -> (k < 3)%nat ->
  c = Z.of_nat k ->
  np_locate a x y c = Some (Z.to_nat x, Z.to_nat y, k).
Proof.
  intros Hs [[Hx0 Hx1] [Hy0 Hy1]] Hk ->. simpl in *.
  rewrite <- (Z2Nat.id x) at 1 by assumption.
  rewrite <- (Z2Nat.id y) at 1 by assumption.
  eapply np_locate_of_nat; [eassumption | lia | lia | assumption].
Qed.

Lemma on_working_mean_iadd (p : Pipeline) (w : World) wm x y c v i j k :
  _working_mean p = Some wm -> np_locate wm x y c = Some (i, j, k) ->
  on__working_mean (np_iadd x y c v) (p, w)
  = (Ok tt, (set__working_mean (Some (store wm (i, j, k) (item wm i j k + v))) p, w)).
Proof.
  intros Hw Hl. unfold on__working_mean, on_attr, np_iadd, np_getitem, np_setitem.
  simpl. rewrite Hw, Hl. reflexivity.
Qed.

Lemma on_working_variance_iadd (p : Pipeline) (w : World) wv x y c v i j k :
  _working_variance p = Some wv -> np_locate wv x y c = Some (i, j, k) ->
  on__working_variance (np_iadd x y c v) (p, w)
  = (Ok tt, (set__working_variance (Some (store wv (i, j, k) (item wv i j k + v))) p, w)).
Proof.
  intros Hw Hl. unfold on__working_variance, on_attr, np_iadd, np_getitem, np_setitem.
  simpl. rewrite Hw, Hl. reflexivity.
Qed.

(** [update] is its six accumulation statements followed by [_update_display]. *)
Lemma update_accumulates (p : Pipeline) (w : World) px x y mean variance slice_id wm wv :
  _working_mean p = Some wm -> _working_variance p = Some wv ->
  shape wm = (fst px, snd px, 3%nat) -> shape wv = (fst px, snd px, 3%nat) ->
  in_grid px (x, y) ->
  update clock ciexyz_to_srgb error_map (x, y) (mean, variance) slice_id (p, w)
  = _update_display clock ciexyz_to_srgb error_map
      (set__working_variance
         (Some (accumulated wv (Z.to_nat x) (Z.to_nat y) variance))
         (set__working_mean
            (Some (accumulated wm (Z.to_nat x) (Z.to_nat y) mean)) p), w).
Proof.
  intros Hm Hv Hsm Hsv Hg. unfold update.
  erewrite bind_ok; [| apply on_working_mean_iadd;
    [eassumption | apply (np_locate_in_grid (k := 0) wm Hsm Hg); [lia | reflexivity]]].
  erewrite bind_ok; [| apply on_working_mean_iadd;
    [reflexivity | rewrite np_locate_store;
       apply (np_locate_in_grid (k := 1) wm Hsm Hg); [lia | reflexivity]]].
  erewrite bind_ok; [| apply on_working_mean_iadd;
    [reflexivity | rewrite !np_locate_store;
       apply (np_locate_in_grid (k := 2) wm Hsm Hg); [lia | reflexivity]]].
  erewrite bind_ok; [| apply on_working_variance_iadd;
    [eassumption | apply (np_locate_in_grid (k := 0) wv Hsv Hg); [lia | reflexivity]]].
  erewrite bind_ok; [| apply on_working_variance_iadd;
    [reflexivity | rewrite np_locate_store;
       apply (np_locate_in_grid (k := 1) wv Hsv Hg); [lia | reflexivity]]].
  erewrite bind_ok; [| apply on_working_variance_iadd;
    [reflexivity | rewrite !np_locate_store;
       apply (np_locate_in_grid (k := 2) wv Hsv Hg); [lia | reflexivity]]].
  reflexivity.
Qed.

Lemma accumulated_other a i j t i' j' k :
  (i', j') <> (i, j) -> item (accumulated a i j t) i' j' k = item a i' j' k.
Proof.
  intros H. unfold accumulated.
  rewrite !item_store_other; [reflexivity | | |]; intros E; inversion E; subst;
    apply H; reflexivity.
Qed.

Lemma accumulated_at a i j t :
  item (accumulated a i j t) i j 0%nat = item a i j 0%nat + ch0 t
  /\ item (accumulated a i j t) i j 1%nat = item a i j 1%nat + ch1 t
  /\ item (accumulated a i j t) i j 2%nat = item a i j 2%nat + ch2 t.
Proof.
  unfold accumulated. repeat split.
  - rewrite !item_store_other by (intros E; inversion E).
    rewrite item_store_same. reflexivity.
  - rewrite item_store_other by (intros E; inversion E).
    rewrite item_store_same.
    rewrite item_store_other by (intros E; inversion E). reflexivity.
  - rewrite item_store_same.
    rewrite !item_store_other by (intros E; inversion E). reflexivity.
Qed.

(** *** [_update_display] *)

Lemma update_display_quiet (p : Pipeline) (w : World) :
  ~ (display_progress p = true
     /\ display_update_time p < clock (ticks w) - _display_timer p) ->
  _update_display clock ciexyz_to_srgb error_map (p, w)
  = (Ok tt, (p, mk_World (if display_progress p then S (ticks w) else ticks w)
                         (trace w))).
Proof.
  intros H. unfold _update_display, bind, getattr, time. simpl.
  destruct (display_progress p); [| destruct w; reflexivity].
  destruct (Qlt_le_dec _ _) as [Hlt | Hle].
  - exfalso. apply H. split; [reflexivity | exact Hlt].
  - reflexivity.
Qed.

Lemma update_display_refresh (p : Pipeline) (w : World) f a nx ny :
  display_progress p = true ->
  display_update_time p < clock (ticks w) - _display_timer p ->
  xyz_frame p = Some f -> rgb_frame p = Some a ->
  shape (mean f) = (nx, ny, 3%nat) -> shape a = (nx, ny, 3%nat) ->
  exists a',
    _update_display clock ciexyz_to_srgb error_map (p, w)
    = (Ok tt,
       (set__display_timer (clock (S (ticks w))) (set_rgb_frame (Some a') p),
        mk_World (S (S (ticks w)))
          (trace w ++ [EvPrint "RGBPipeline2D updating display...";
                       EvImshowRGB (np_transpose_102 a');
                       EvImshowError (error_map f); EvShow])))
    /\ shape a' = (nx, ny, 3%nat)
    /\ forall i j, (i < nx)%nat -> (j < ny)%nat ->
         rgb_at a' i j = resolved ciexyz_to_srgb (sensitivity p) f i j.
Proof.
  intros Hdp Hlt Hf Ha Hsf Hsa.
  destruct (generate_srgb_spec p
              (mk_World (S (ticks w))
                 (trace w ++ [EvPrint "RGBPipeline2D updating display..."]))
              Hf Ha Hsf Hsa) as (a' & E & Hs' & Hg').
  exists a'. split; [| split; assumption].
  unfold _update_display.
  run_step. rewrite Hdp.
  run_step. run_step. run_step.
  destruct (Qlt_le_dec _ _) as [_ | Hle].
  2: { exfalso. apply (Qlt_not_le _ _ Hlt). exact Hle. }
  run_step.
  erewrite bind_ok by exact E.
  erewrite bind_ok.
  2: { apply display_ready with (f := f) (a := a'); [exact Hf | reflexivity]. }
  run_step.
  unfold setattr. simpl. rewrite <- app_assoc. reflexivity.
Qed.

(** An [update] at a pixel of the grid, during a render pass, returns normally
    and keeps the pass going. *)
Lemma update_ready (p : Pipeline) (w : World) px x y mean variance slice_id :
  ready px p -> in_grid px (x, y) ->
  exists p' w',
    update clock ciexyz_to_srgb error_map (x, y) (mean, variance) slice_id (p, w)
    = (Ok tt, (p', w'))
    /\ ready px p'
    /\ xyz_frame p' = xyz_frame p
    /\ _samples p' = _samples p
    /\ sensitivity p' = sensitivity p
    /\ display_progress p' = display_progress p.
Proof.
  intros (f & a & wm & wv & Hf & Ha & Hm & Hv & Hpx & Hwf & Hsa & Hsm & Hsv) Hg.
  rewrite (@update_accumulates p w px x y mean variance slice_id wm wv Hm Hv Hsm Hsv Hg).
  set (p1 := set__working_variance _ _).
  destruct Hwf as (Hwm & Hwv & Hws). rewrite Hpx in Hwm, Hwv, Hws.
  assert (R1 : forall a', shape a' = (fst px, snd px, 3%nat) ->
                          ready px (set_rgb_frame (Some a') p1)).
  { intros a' Hs'. exists f, a', (accumulated wm (Z.to_nat x) (Z.to_nat y) mean),
      (accumulated wv (Z.to_nat x) (Z.to_nat y) variance).
    repeat split; try assumption; try (rewrite Hpx; assumption). }
  destruct (display_progress p) eqn:Hdp.
  - destruct (Qlt_le_dec (display_update_time p1)
                (clock (ticks w) - _display_timer p1)) as [Hlt | Hle].
    + destruct (@update_display_refresh p1 w f a (fst px) (snd px))
        as (a' & E & Hs' & _); try assumption.
      eexists _, _. split; [exact E |].
      split; [| repeat split; assumption].
      destruct (R1 a' Hs') as (f0 & a0 & wm0 & wv0 & H0).
      exists f0, a0, wm0, wv0. exact H0.
    + rewrite update_display_quiet.
      2: { intros [_ Hlt]. apply (Qlt_not_le _ _ Hlt). exact Hle. }
      eexists _, _. split; [reflexivity |].
      split; [| repeat split; assumption].
      rewrite <- (set_rgb_frame_same p1 (a := a)) by assumption.
      apply R1. assumption.
  - rewrite update_display_quiet.
    2: { intros [Hdp' _]. change (display_progress p1) with (display_progress p) in Hdp'.
         congruence. }
    eexists _, _. split; [reflexivity |].
    split; [| repeat split; assumption].
    rewrite <- (set_rgb_frame_same p1 (a := a)) by assumption.
    apply R1. assumption.
Qed.

Lemma updates_ready (us : list update_call) :
  forall (p : Pipeline) (w : World) px,
    ready px p -> Forall (fun u => in_grid px (fst (fst u))) us ->
    exists p' w',
      updates clock ciexyz_to_srgb error_map us (p, w) = (Ok tt, (p', w'))
      /\ ready px p'
      /\ xyz_frame p' = xyz_frame p
      /\ _samples p' = _samples p
      /\ sensitivity p' = sensitivity p
      /\ display_progress p' = display_progress p.
Proof.
  induction us as [| [[[x y] [mean variance]] slice_id] us IH];
    intros p w px Hr Hus.
  - exists p, w. repeat split; try reflexivity. assumption.
  - inversion Hus as [| u us' Hu Hrest]; subst. simpl in Hu.
    destruct (@update_ready p w px x y mean variance slice_id Hr Hu)
      as (p1 & w1 & E1 & Hr1 & Hx1 & Hn1 & Hs1 & Hd1).
    destruct (IH p1 w1 px Hr1 Hrest) as (p2 & w2 & E2 & Hr2 & Hx2 & Hn2 & Hs2 & Hd2).
    exists p2, w2. split.
    + unfold updates. simpl. erewrite bind_ok by exact E1. exact E2.
    + repeat split; try assumption; congruence.
Qed.

(** *** [finalise] *)

Lemma stat_at_merge_cell f x y c m v n i j k :
  stat_at (merge_cell f (x, y, c) m v n) i j k
  = if cell_eqb (i, j, k) (x, y, c) then pooled_merge (stat_at f x y c) m v n
    else stat_at f i j k.
Proof.
  unfold merge_cell, stat_at, store. simpl.
  destruct ((i =? x) && (j =? y) && (k =? c))%nat; reflexivity.
Qed.

Lemma stat_at_merge_pixel f wm wv n x y i j k :
  stat_at (merge_pixel f wm wv n x y) i j k
  = if ((i =? x) && (j =? y) && (k <? 3))%nat
    then pooled_merge (stat_at f i j k) (item wm i j k) (item wv i j k) n
    else stat_at f i j k.
Proof.
  unfold merge_pixel. rewrite !stat_at_merge_cell. unfold cell_eqb.
  destruct (i =? x)%nat eqn:Ei; [| reflexivity].
  destruct (j =? y)%nat eqn:Ej; [| reflexivity].
  apply Nat.eqb_eq in Ei, Ej. subst.
  rewrite !Nat.eqb_refl.
  destruct k as [| [| [| k]]]; reflexivity.
Qed.

Lemma finalise_channel_spec (p : Pipeline) (w : World) f wm wv nx ny x y k c :
  xyz_frame p = Some f ->
  _working_mean p = Some wm -> _working_variance p = Some wv ->
  shape (mean f) = (nx, ny, 3%nat) ->
  shape wm = (nx, ny, 3%nat) -> shape wv = (nx, ny, 3%nat) ->
  (x < nx)%nat -> (y < ny)%nat -> (k < 3)%nat -> c = Z.of_nat k ->
  finalise_channel x y c (p, w)
  = (Ok tt,
     (set_xyz_frame
        (Some (merge_cell f (x, y, k) (item wm x y k) (item wv x y k) (_samples p)))
        p, w)).
Proof.
  intros Hf Hm Hv Hsf Hsm Hsv Hx Hy Hk Hc.
  unfold finalise_channel.
  erewrite bind_ok by (unfold read_attr; simpl; rewrite Hf; reflexivity).
  erewrite bind_ok.
  2: { unfold read_attr, np_getitem. simpl. rewrite Hm.
       rewrite (np_locate_at wm Hsm Hx Hy Hk Hc). reflexivity. }
  erewrite bind_ok.
  2: { unfold read_attr, np_getitem. simpl. rewrite Hv.
       rewrite (np_locate_at wv Hsv Hx Hy Hk Hc). reflexivity. }
  run_step.
  unfold on_xyz_frame, on_attr, combine_samples. simpl. rewrite Hf.
  rewrite (np_locate_at (mean f) Hsf Hx Hy Hk Hc). reflexivity.
Qed.

Lemma finalise_pixel_spec (p : Pipeline) (w : World) f wm wv nx ny x y :
  xyz_frame p = Some f ->
  _working_mean p = Some wm -> _working_variance p = Some wv ->
  shape (mean f) = (nx, ny, 3%nat) ->
  shape wm = (nx, ny, 3%nat) -> shape wv = (nx, ny, 3%nat) ->
  (x < nx)%nat -> (y < ny)%nat ->
  (finalise_channel x y 0 ;;; finalise_channel x y 1 ;;; finalise_channel x y 2)
    (p, w)
  = (Ok tt, (set_xyz_frame (Some (merge_pixel f wm wv (_samples p) x y)) p, w)).
Proof.
  intros Hf Hm Hv Hsf Hsm Hsv Hx Hy.
  set (f1 := merge_cell f (x, y, 0%nat) (item wm x y 0%nat) (item wv x y 0%nat)
               (_samples p)).
  set (f2 := merge_cell f1 (x, y, 1%nat) (item wm x y 1%nat) (item wv x y 1%nat)
               (_samples p)).
  rewrite (bind_ok _ _ _
             (@finalise_channel_spec p w f wm wv nx ny x y 0%nat 0%Z
                Hf Hm Hv Hsf Hsm Hsv Hx Hy ltac:(lia) eq_refl)).
  fold f1.
  rewrite (bind_ok _ _ _
             (@finalise_channel_spec (set_xyz_frame (Some f1) p) w f1 wm wv nx ny
                x y 1%nat 1%Z eq_refl Hm Hv Hsf Hsm Hsv Hx Hy ltac:(lia) eq_refl)).
  exact (@finalise_channel_spec (set_xyz_frame (Some f2) p) w f2 wm wv nx ny
           x y 2%nat 2%Z eq_refl Hm Hv Hsf Hsm Hsv Hx Hy ltac:(lia) eq_refl).
Qed.

Lemma set_xyz_frame_same (p : Pipeline) f :
  xyz_frame p = Some f -> set_xyz_frame (Some f) p = p.
Proof. destruct p. simpl. intros ->. reflexivity. Qed.

(** The two nested loops of [finalise]. *)
Lemma finalise_loops_spec (p : Pipeline) (w : World) f wm wv nx ny :
  xyz_frame p = Some f ->
  _working_mean p = Some wm -> _working_variance p = Some wv ->
  pixels f = (nx, ny) -> frame_wf f ->
  shape wm = (nx, ny, 3%nat) -> shape wv = (nx, ny, 3%nat) ->
  exists f',
    for_each (range nx) (fun x =>
      px <- @frame_pixels CMF ;;
      for_each (range (snd px)) (fun y =>
        finalise_channel x y 0 ;;;
        finalise_channel x y 1 ;;;
        finalise_channel x y 2)) (p, w)
    = (Ok tt, (set_xyz_frame (Some f') p, w))
    /\ pixels f' = (nx, ny) /\ frame_wf f'
    /\ forall i j k, (i < nx)%nat -> (j < ny)%nat -> (k < 3)%nat ->
         stat_at f' i j k
         = pooled_merge (stat_at f i j k) (item wm i j k) (item wv i j k)
             (_samples p).
Proof.
  intros Hf Hm Hv Hpx Hwf Hsm Hsv.
  set (merged := fun i j k =>
         pooled_merge (stat_at f i j k) (item wm i j k) (item wv i j k) (_samples p)).
  set (Pout := fun (done : list nat) (s : State) =>
    exists f', s = (set_xyz_frame (Some f') p, w)
      /\ pixels f' = (nx, ny) /\ frame_wf f'
      /\ forall i j k,
           (In i done -> (j < ny)%nat -> (k < 3)%nat -> stat_at f' i j k = merged i j k)
           /\ (~ In i done -> stat_at f' i j k = stat_at f i j k)).
  destruct (for_each_rule Pout (fun x =>
      px <- @frame_pixels CMF ;;
      for_each (range (snd px)) (fun y =>
        finalise_channel x y 0 ;;;
        finalise_channel x y 1 ;;;
        finalise_channel x y 2)) (range nx) [] (NoDup_range nx))
    with (s := (p, w)) as (s' & E & f' & -> & Hpx' & Hwf' & Hst').
  - intros dx x s (f1 & -> & Hpx1 & Hwf1 & Hst1) Hxd Hx. apply in_range in Hx.
    set (Pin := fun (done : list nat) (s : State) =>
      exists f', s = (set_xyz_frame (Some f') p, w)
        /\ pixels f' = (nx, ny) /\ frame_wf f'
        /\ forall i j k,
             (In i dx -> (j < ny)%nat -> (k < 3)%nat -> stat_at f' i j k = merged i j k)
             /\ (i = x -> In j done -> (k < 3)%nat -> stat_at f' i j k = merged i j k)
             /\ (~ In i dx -> ~ (i = x /\ In j done) ->
                 stat_at f' i j k = stat_at f i j k)).
    destruct (for_each_rule Pin (fun y =>
        finalise_channel x y 0 ;;;
        finalise_channel x y 1 ;;;
        finalise_channel x y 2) (range ny) [] (NoDup_range ny))
      with (s := (set_xyz_frame (Some f1) p, w))
      as (s2 & E2 & f2 & -> & Hpx2 & Hwf2 & Hst2).
    + intros dy y s (f2 & -> & Hpx2 & Hwf2 & Hst2) Hyd Hy. apply in_range in Hy.
      assert (Hsf2 : shape (mean f2) = (nx, ny, 3%nat)).
      { destruct Hwf2 as (H & _ & _). rewrite Hpx2 in H. exact H. }
      eexists. split.
      * exact (@finalise_pixel_spec (set_xyz_frame (Some f2) p) w f2 wm wv nx ny
                 x y eq_refl Hm Hv Hsf2 Hsm Hsv Hx Hy).
      * exists (merge_pixel f2 wm wv (_samples p) x y).
        split; [reflexivity |]. split; [exact Hpx2 |]. split; [exact Hwf2 |].
        intros i j k. rewrite stat_at_merge_pixel.
        destruct (Hst2 i j k) as (H1 & H2 & H3).
        destruct ((i =? x) && (j =? y) && (k <? 3))%nat eqn:Ec.
        -- apply andb_prop in Ec. destruct Ec as [Ec Ek].
           apply andb_prop in Ec. destruct Ec as [Ei Ej].
           apply Nat.eqb_eq in Ei, Ej. subst i j.
           assert (Hsame : stat_at f2 x y k = stat_at f x y k).
           { apply H3; [assumption |]. intros [_ Hin]. contradiction. }
           rewrite Hsame.
           split; [intros; reflexivity |]. split; [intros; reflexivity |].
           intros _ Hn. exfalso. apply Hn. split; [reflexivity |].
           apply in_or_app. right. left. reflexivity.
        -- repeat split.
           ++ exact H1.
           ++ intros Hi Hj Hk. subst i.
              apply in_app_or in Hj. destruct Hj as [Hj | [Hj | []]].
              ** apply H2; auto.
              ** subst j. rewrite !Nat.eqb_refl in Ec.
                 apply Nat.ltb_lt in Hk. rewrite Hk in Ec. discriminate.
           ++ intros Hi Hn. apply H3; [assumption |].
              intros [Hix Hj]. apply Hn. split; [assumption |].
              apply in_or_app. left. assumption.
    + exists f1. split; [reflexivity |]. split; [assumption |]. split; [assumption |].
      intros i j k. destruct (Hst1 i j k) as (H1 & H2). repeat split.
      * exact H1.
      * intros _ [].
      * intros Hi _. apply H2. assumption.
    + exists (set_xyz_frame (Some f2) p, w). split.
      * erewrite bind_ok.
        2: { unfold frame_pixels, read_attr. simpl. reflexivity. }
        rewrite Hpx1. exact E2.
      * exists f2. split; [reflexivity |]. split; [assumption |]. split; [assumption |].
        intros i j k. destruct (Hst2 i j k) as (H1 & H2 & H3). split.
        -- intros Hi Hj Hk. apply in_app_or in Hi. destruct Hi as [Hi | [Hi | []]].
           ++ apply H1; assumption.
           ++ subst i. apply H2; [reflexivity | | assumption].
              simpl. apply in_range. assumption.
        -- intros Hn. apply H3.
           ++ intros Hi. apply Hn. apply in_or_app. left. assumption.
           ++ intros [Hi _]. apply Hn. apply in_or_app. right. left. congruence.
  - exists f. split; [rewrite set_xyz_frame_same by assumption; reflexivity |].
    split; [assumption |]. split; [assumption |].
    intros i j k. split; [intros [] | reflexivity].
  - exists f'. split; [exact E |]. split; [assumption |]. split; [assumption |].
    intros i j k Hi Hj Hk. apply (Hst' i j k); try assumption.
    simpl. apply in_range. assumption.
Qed.

Lemma finalise_spec (p : Pipeline) (w : World) px f wm wv :
  ready px p ->
  xyz_frame p = Some f ->
  _working_mean p = Some wm -> _working_variance p = Some wv ->
  exists f' a',
    finalise ciexyz_to_srgb error_map (p, w)
    = (Ok tt,
       (set_rgb_frame (Some a') (set_xyz_frame (Some f') p),
        if display_progress p
        then mk_World (ticks w)
               (trace w ++ [EvImshowRGB (np_transpose_102 a');
                            EvImshowError (error_map f'); EvShow])
        else w))
    /\ pixels f' = px /\ frame_wf f'
    /\ shape a' = (fst px, snd px, 3%nat)
    /\ (forall i j k, (i < fst px)%nat -> (j < snd px)%nat -> (k < 3)%nat ->
          stat_at f' i j k
          = pooled_merge (stat_at f i j k) (item wm i j k) (item wv i j k)
              (_samples p))
    /\ (forall i j, (i < fst px)%nat -> (j < snd px)%nat ->
          rgb_at a' i j = resolved ciexyz_to_srgb (sensitivity p) f' i j).
Proof.
  intros (f0 & a & wm0 & wv0 & Hf0 & Ha & Hm0 & Hv0 & Hpx & Hwf & Hsa & Hsm & Hsv)
    Hf Hm Hv.
  assert (f0 = f) by congruence. assert (wm0 = wm) by congruence.
  assert (wv0 = wv) by congruence. subst f0 wm0 wv0.
  destruct px as [nx ny]. simpl in *.
  destruct (finalise_loops_spec p w Hf Hm Hv Hpx Hwf Hsm Hsv)
    as (f' & Eloop & Hpx' & Hwf' & Hst').
  assert (Hsf' : shape (mean f') = (nx, ny, 3%nat)).
  { destruct Hwf' as (H & _ & _). rewrite Hpx' in H. exact H. }
  destruct (@generate_srgb_spec (set_xyz_frame (Some f') p) w f' a nx ny
              eq_refl Ha Hsf' Hsa) as (a' & Esrgb & Hsa' & Hrgb').
  exists f', a'.
  split; [| split; [exact Hpx' | split; [exact Hwf' | split; [exact Hsa' |
    split; [exact Hst' | exact Hrgb']]]]].
  unfold finalise.
  erewrite bind_ok.
  2: { unfold frame_pixels, read_attr. simpl. rewrite Hf. reflexivity. }
  rewrite Hpx. cbn [fst].
  erewrite bind_ok by exact Eloop.
  erewrite bind_ok by exact Esrgb.
  run_step.
  change (display_progress (set_rgb_frame (Some a') (set_xyz_frame (Some f') p)))
    with (display_progress p).
  destruct (display_progress p).
  - apply display_ready; reflexivity.
  - reflexivity.
Qed.

(** *** [initialise] *)

(** [initialise] is its assignments followed by [_start_display]. *)
Lemma initialise_unfold (p : Pipeline) (w : World) px n slices :
  initialise clock resample_ciexyz error_map px n slices (p, w)
  = _start_display clock error_map
      (initialised resample_ciexyz px n slices p, initialised_world px p w).
Proof.
  unfold initialise, initialised, initialised_world. run_step.
  destruct (must_allocate p px); reflexivity.
Qed.

Lemma pixels_eqb_eq (a b : nat * nat) : pixels_eqb a b = true <-> a = b.
Proof.
  destruct a, b. unfold pixels_eqb. simpl.
  rewrite andb_true_iff, !Nat.eqb_eq. split.
  - intros [-> ->]. reflexivity.
  - intros H. inversion H. auto.
Qed.

(** The frame buffer is reused exactly when the [if] of [initialise] is not
    taken. *)
Lemma must_allocate_false_iff (p : Pipeline) px :
  must_allocate p px = false
  <-> accumulate p = true /\ exists f, xyz_frame p = Some f /\ pixels f = px.
Proof.
  unfold must_allocate. rewrite orb_false_iff, negb_false_iff. split.
  - intros [Ha Hx]. split; [exact Ha |].
    destruct (xyz_frame p) as [f |]; [| discriminate].
    exists f. split; [reflexivity |].
    apply negb_false_iff in Hx. apply pixels_eqb_eq. exact Hx.
  - intros [Ha (f & Hf & Hpx)]. split; [exact Ha |].
    rewrite Hf. apply negb_false_iff. apply pixels_eqb_eq. exact Hpx.
Qed.

Lemma start_display_spec (p : Pipeline) (w : World) f a :
  xyz_frame p = Some f -> rgb_frame p = Some a ->
  _start_display clock error_map (p, w)
  = (Ok tt,
     if display_progress p
     then (set__display_timer (clock (ticks w)) p,
           mk_World (S (ticks w))
             (trace w ++ [EvImshowRGB (np_transpose_102 a);
                          EvImshowError (error_map f); EvShow]))
     else (set__display_timer 0 p, w)).
Proof.
  intros Hf Ha. unfold _start_display. run_step. run_step.
  change (display_progress (set__display_timer 0 p)) with (display_progress p).
  destruct (display_progress p); [| reflexivity].
  erewrite bind_ok by (apply display_ready with (f := f) (a := a); assumption).
  run_step. reflexivity.
Qed.

(** After the assignments of [initialise] both buffers exist and cover the
    requested grid. *)
Lemma initialised_buffers (p : Pipeline) px n slices :
  coherent p ->
  exists f a,
    xyz_frame (initialised resample_ciexyz px n slices p) = Some f
    /\ rgb_frame (initialised resample_ciexyz px n slices p) = Some a
    /\ pixels f = px /\ frame_wf f /\ shape a = (fst px, snd px, 3%nat).
Proof.
  intros Hc. unfold initialised. destruct (must_allocate p px) eqn:E.
  - exists (Frame2D_new px 3), (np_zeros 0 (fst px, snd px, 3%nat)).
    repeat split.
  - apply must_allocate_false_iff in E. destruct E as [_ (f & Hf & Hpx)].
    unfold coherent in Hc. rewrite Hf in Hc.
    destruct (rgb_frame p) as [a |] eqn:Ha; [| contradiction].
    destruct Hc as [Hwf Hsa]. exists f, a. simpl.
    rewrite Hpx in Hsa.
    split; [exact Hf |]. split; [exact Ha |]. split; [exact Hpx |].
    split; [exact Hwf | exact Hsa].
Qed.

(** [initialise] opens a render pass over the requested grid. *)
Lemma initialise_ready (p : Pipeline) (w : World) px n slices :
  coherent p ->
  exists p' w',
    initialise clock resample_ciexyz error_map px n slices (p, w)
    = (Ok tt, (p', w'))
    /\ ready px p'
    /\ _samples p' = n
    /\ sensitivity p' = sensitivity p
    /\ display_progress p' = display_progress p
    /\ _working_mean p' = Some (np_zeros 0 (fst px, snd px, 3%nat))
    /\ _working_variance p' = Some (np_zeros 0 (fst px, snd px, 3%nat)).
Proof.
  intros Hc. rewrite initialise_unfold.
  destruct (@initialised_buffers p px n slices Hc) as (f & a & Hf & Ha & Hpx & Hwf & Hsa).
  set (p1 := initialised resample_ciexyz px n slices p) in *.
  rewrite (start_display_spec p1 (initialised_world px p w) Hf Ha).
  assert (Hready : forall t, ready px (set__display_timer t p1)).
  { intros t. exists f, a, (np_zeros 0 (fst px, snd px, 3%nat)),
      (np_zeros 0 (fst px, snd px, 3%nat)).
    split; [exact Hf |]. split; [exact Ha |].
    split; [reflexivity |]. split; [reflexivity |]. split; [exact Hpx |].
    split; [exact Hwf |]. split; [exact Hsa |]. split; reflexivity. }
  assert (Hsame : sensitivity p1 = sensitivity p
                  /\ display_progress p1 = display_progress p).
  { subst p1. unfold initialised. destruct (must_allocate p px); split; reflexivity. }
  destruct Hsame as [Hsens Hdp].
  destruct (display_progress p1) eqn:Hdp1.
  - eexists _, _. split; [reflexivity |]. split; [apply Hready |].
    split; [reflexivity |]. split; [exact Hsens |].
    split; [change (display_progress p1 = display_progress p); congruence |].
    split; reflexivity.
  - eexists _, _. split; [reflexivity |]. split; [apply Hready |].
    split; [reflexivity |]. split; [exact Hsens |].
    split; [change (display_progress p1 = display_progress p); congruence |].
    split; reflexivity.
Qed.

(** C1. After [initialise] and the [update] calls of a render pass (at pixels
    of the grid), [finalise] returns normally; for every pixel and every one
    of the three channels the statistic of the frame buffer has become the
    pooled two-group merge of its previous value with the (mean, variance)
    entry of the working accumulator, counted with the recorded
    [pixel_samples]; and the display buffer holds, at every pixel, the colour
    resolved from the updated frame buffer. *)
Theorem finalise_merges_working_accumulator
    (p0 : Pipeline) (w0 : World) px n slices (us : list update_call) :
  coherent p0 ->
  Forall (fun u => in_grid px (fst (fst u))) us ->
  exists p1 w1 p2 w2 f wm wv f' a' w3,
    initialise clock resample_ciexyz error_map px n slices (p0, w0)
    = (Ok tt, (p1, w1))
    /\ updates clock ciexyz_to_srgb error_map us (p1, w1) = (Ok tt, (p2, w2))
    /\ xyz_frame p2 = Some f
    /\ _working_mean p2 = Some wm /\ _working_variance p2 = Some wv
    /\ finalise ciexyz_to_srgb error_map (p2, w2)
       = (Ok tt, (set_rgb_frame (Some a') (set_xyz_frame (Some f') p2), w3))
    /\ (forall i j k, (i < fst px)%nat -> (j < snd px)%nat -> (k < 3)%nat ->
          stat_at f' i j k
          = pooled_merge (stat_at f i j k) (item wm i j k) (item wv i j k) n)
    /\ (forall i j, (i < fst px)%nat -> (j < snd px)%nat ->
          rgb_at a' i j = resolved ciexyz_to_srgb (sensitivity p0) f' i j).
Proof.
  intros Hc Hus.
  destruct (initialise_ready p0 w0 px n slices Hc)
    as (p1 & w1 & E1 & Hr1 & Hn1 & Hs1 & _).
  destruct (@updates_ready us p1 w1 px Hr1 Hus)
    as (p2 & w2 & E2 & Hr2 & _ & Hn2 & Hs2 & _).
  assert (Hbuf : exists f wm wv, xyz_frame p2 = Some f
            /\ _working_mean p2 = Some wm /\ _working_variance p2 = Some wv).
  { destruct Hr2 as (f & a & wm & wv & Hf & Ha & Hm & Hv & _).
    exists f, wm, wv. auto. }
  destruct Hbuf as (f & wm & wv & Hf & Hm & Hv).
  destruct (@finalise_spec p2 w2 px f wm wv Hr2 Hf Hm Hv)
    as (f' & a' & E3 & _ & _ & _ & Hst & Hrgb).
  exists p1, w1, p2, w2, f, wm, wv, f', a'. eexists.
  split; [exact E1 |]. split; [exact E2 |].
  split; [exact Hf |]. split; [exact Hm |]. split; [exact Hv |].
  split; [exact E3 |]. split.
  - intros i j k Hi Hj Hk. rewrite (Hst i j k Hi Hj Hk). congruence.
  - intros i j Hi Hj. rewrite (Hrgb i j Hi Hj). congruence.
Qed.

(** [_start_display] touches neither the buffers nor the allocation count. *)
Lemma start_display_keeps_buffers F R WM WV N :
  preserves (fun s : State =>
               xyz_frame (fst s) = F /\ rgb_frame (fst s) = R
               /\ _working_mean (fst s) = WM /\ _working_variance (fst s) = WV
               /\ allocations (trace (snd s)) = N)
            (_start_display clock error_map).
Proof.
  unfold _start_display, display. frame_rules;
    simpl in *; rewrite ?allocations_app; simpl; rewrite ?Nat.add_0_r; assumption.
Qed.

(** C2. [initialise] reuses the existing frame buffer (and display buffer)
    exactly when accumulate mode is enabled, a frame buffer exists and its
    pixel dimensions equal the requested ones: then both buffers are kept and
    no frame buffer is constructed.  Otherwise exactly one frame buffer is
    constructed and both buffers are replaced by new ones, in which every
    statistic (mean, variance, sample count) and every display value is zero.
    In every case the working accumulator becomes a zero array of the
    requested pixel dimensions (with three channels). *)
Theorem initialise_reuses_or_reallocates
    (p : Pipeline) (w : World) (px : nat * nat) (n : Z) (slices : list SpectralSlice) :
  let s' := snd (initialise clock resample_ciexyz error_map px n slices (p, w)) in
  let reuse := accumulate p = true
               /\ exists f, xyz_frame p = Some f /\ pixels f = px in
  let zeros := np_zeros 0 (fst px, snd px, 3%nat) in
  (reuse <-> allocations (trace (snd s')) = allocations (trace w))
  /\ (reuse -> xyz_frame (fst s') = xyz_frame p /\ rgb_frame (fst s') = rgb_frame p)
  /\ (~ reuse -> xyz_frame (fst s') = Some (Frame2D_new px 3)
                 /\ rgb_frame (fst s') = Some zeros
                 /\ allocations (trace (snd s')) = S (allocations (trace w)))
  /\ (forall i j k, stat_at (Frame2D_new px 3) i j k = mk_Stat 0 0 0
                    /\ item zeros i j k = 0)
  /\ pixels (Frame2D_new px 3) = px
  /\ _working_mean (fst s') = Some zeros
  /\ _working_variance (fst s') = Some zeros
  /\ shape zeros = (fst px, snd px, 3%nat).
Proof.
  intros s' reuse zeros. subst s'. rewrite initialise_unfold.
  match goal with
  | |- context [_start_display clock error_map (?p1, ?w1)] =>
      pose proof (@start_display_keeps_buffers (xyz_frame p1) (rgb_frame p1)
                    (_working_mean p1) (_working_variance p1)
                    (allocations (trace w1)) (p1, w1)
                    (conj eq_refl (conj eq_refl (conj eq_refl
                       (conj eq_refl eq_refl))))) as K
  end.
  cbv beta in K. destruct K as (Kf & Kr & Km & Kv & Ka).
  rewrite Kf, Kr, Km, Kv, Ka. clear Kf Kr Km Kv Ka.
  cbn [fst snd]. unfold initialised, initialised_world.
  assert (Hdec : must_allocate p px = false <-> reuse)
    by apply must_allocate_false_iff.
  destruct (must_allocate p px) eqn:E.
  - assert (Hn : ~ reuse) by (intros H; apply Hdec in H; discriminate).
    cbn [trace]. rewrite allocations_app. simpl.
    split; [split; [contradiction | intros H; exfalso; lia] |].
    split; [contradiction |].
    split; [intros _; repeat split; lia |].
    repeat split.
  - assert (Hy : reuse) by (apply Hdec; reflexivity).
    split; [split; [reflexivity | intros _; exact Hy] |].
    split; [intros _; split; reflexivity |].
    split; [contradiction |].
    repeat split.
Qed.

(** [_update_display] touches neither the frame buffer nor the working
    accumulator, whether it returns or raises. *)
Lemma update_display_keeps_statistics F WM WV :
  preserves (fun s : State =>
               xyz_frame (fst s) = F
               /\ _working_mean (fst s) = WM /\ _working_variance (fst s) = WV)
            (_update_display clock ciexyz_to_srgb error_map).
Proof.
  unfold _update_display, _generate_srgb_frame, srgb_pixel, display, on_rgb_frame.
  frame_rules; simpl in *; assumption.
Qed.

(** [update] never touches the frame buffer, whatever its arguments and
    whether it returns or raises. *)
Lemma update_keeps_xyz_frame F pixel_id packed_result slice_id :
  preserves (fun s : State => xyz_frame (fst s) = F)
            (update clock ciexyz_to_srgb error_map pixel_id packed_result slice_id).
Proof.
  destruct pixel_id as [x y], packed_result as [mean variance].
  unfold update, on__working_mean, on__working_variance, _update_display,
    _generate_srgb_frame, srgb_pixel, display, on_rgb_frame.
  frame_rules; simpl in *; assumption.
Qed.

(** C9. An [update] at a pixel of the grid leaves the statistics of the frame
    buffer as they are, leaves the working accumulator as it is at every other
    pixel, and adds the packed mean and variance of each of the three channels
    to the entry of the working accumulator at that pixel. *)
Theorem update_only_accumulates_at_its_pixel
    (p : Pipeline) (w : World) px (x y : Z) (mean variance : Q * Q * Q)
    (slice_id : Z) (wm wv : ndarray Q) :
  _working_mean p = Some wm -> _working_variance p = Some wv ->
  shape wm = (fst px, snd px, 3%nat) -> shape wv = (fst px, snd px, 3%nat) ->
  in_grid px (x, y) ->
  let s' := snd (update clock ciexyz_to_srgb error_map (x, y) (mean, variance)
                   slice_id (p, w)) in
  let i := Z.to_nat x in
  let j := Z.to_nat y in
  xyz_frame (fst s') = xyz_frame p
  /\ exists wm' wv',
       _working_mean (fst s') = Some wm' /\ _working_variance (fst s') = Some wv'
       /\ shape wm' = shape wm /\ shape wv' = shape wv
       /\ (forall i' j' k, (i', j') <> (i, j) ->
             item wm' i' j' k = item wm i' j' k
             /\ item wv' i' j' k = item wv i' j' k)
       /\ item wm' i j 0%nat = item wm i j 0%nat + ch0 mean
       /\ item wm' i j 1%nat = item wm i j 1%nat + ch1 mean
       /\ item wm' i j 2%nat = item wm i j 2%nat + ch2 mean
       /\ item wv' i j 0%nat = item wv i j 0%nat + ch0 variance
       /\ item wv' i j 1%nat = item wv i j 1%nat + ch1 variance
       /\ item wv' i j 2%nat = item wv i j 2%nat + ch2 variance.
Proof.
  intros Hm Hv Hsm Hsv Hg s' i j. split.
  - apply (@update_keeps_xyz_frame (xyz_frame p) (x, y) (mean, variance) slice_id
             (p, w)). reflexivity.
  - subst s'.
    rewrite (@update_accumulates p w px x y mean variance slice_id wm wv
               Hm Hv Hsm Hsv Hg).
    fold i j.
    match goal with
    | |- context [_update_display _ _ _ (?p1, w)] =>
        destruct (@update_display_keeps_statistics (xyz_frame p1)
                    (_working_mean p1) (_working_variance p1) (p1, w)
                    (conj eq_refl (conj eq_refl eq_refl))) as (_ & Km & Kv)
    end.
    exists (accumulated wm i j mean), (accumulated wv i j variance).
    split; [exact Km |]. split; [exact Kv |].
    split; [reflexivity |]. split; [reflexivity |].
    split.
    { intros i' j' k Hne. split; apply accumulated_other; exact Hne. }
    destruct (accumulated_at wm i j mean) as (M0 & M1 & M2).
    destruct (accumulated_at wv i j variance) as (V0 & V1 & V2).
    repeat split; assumption.
Qed.

(** *** When the display buffer exists *)

(** Without buffers, no method other than [initialise] creates one. *)
Lemma no_buffers_kept (c : call) :
  is_initialise c = false ->
  preserves (fun s : State => xyz_frame (fst s) = None /\ rgb_frame (fst s) = None)
            (perform clock resample_ciexyz ciexyz_to_srgb error_map c).
Proof.
  intros Hc. destruct c as [px n slices | [x y] [mean variance] sid | | fn |];
    try discriminate; simpl;
    unfold update, finalise, save, finalise_channel, frame_pixels,
      on__working_mean, on__working_variance, on_xyz_frame, _update_display,
      _generate_srgb_frame, srgb_pixel, display, on_rgb_frame;
    frame_rules; simpl in *;
    solve [ assumption
          | match goal with H : _ /\ _ |- _ => destruct H; congruence end ].
Qed.

(** Once both buffers exist, every method keeps them in existence. *)
Lemma buffers_kept (c : call) :
  preserves (fun s : State => xyz_frame (fst s) <> None /\ rgb_frame (fst s) <> None)
            (perform clock resample_ciexyz ciexyz_to_srgb error_map c).
Proof.
  destruct c as [px n slices | [x y] [mean variance] sid | | fn |]; simpl;
    unfold initialise, _start_display, update, finalise, save, finalise_channel,
      frame_pixels, on__working_mean, on__working_variance, on_xyz_frame,
      _update_display, _generate_srgb_frame, srgb_pixel, display, on_rgb_frame;
    frame_rules; simpl in *;
    solve [ assumption
          | match goal with H : _ /\ _ |- _ => destruct H; split; congruence end ].
Qed.

(** [initialise] always leaves both buffers in existence, provided they existed
    together before. *)
Lemma initialise_creates_buffers (p : Pipeline) (w : World) px n slices :
  (xyz_frame p = None <-> rgb_frame p = None) ->
  let s' := snd (initialise clock resample_ciexyz error_map px n slices (p, w)) in
  xyz_frame (fst s') <> None /\ rgb_frame (fst s') <> None.
Proof.
  intros Hco s'. subst s'. rewrite initialise_unfold.
  match goal with
  | |- context [_start_display clock error_map (?p1, ?w1)] =>
      destruct (@start_display_keeps_buffers (xyz_frame p1) (rgb_frame p1)
                  (_working_mean p1) (_working_variance p1)
                  (allocations (trace w1)) (p1, w1)
                  (conj eq_refl (conj eq_refl (conj eq_refl
                     (conj eq_refl eq_refl))))) as (Kf & Kr & _)
  end.
  rewrite Kf, Kr. unfold initialised. simpl.
  destruct (must_allocate p px) eqn:E; simpl.
  - split; discriminate.
  - apply must_allocate_false_iff in E. destruct E as [_ (f & Hf & _)].
    split; [congruence |]. intros Hr. apply Hco in Hr. congruence.
Qed.

Lemma run_calls_buffers (cs : list call) :
  forall (s : State),
    let s' := run_calls clock resample_ciexyz ciexyz_to_srgb error_map cs s in
    (xyz_frame (fst s) = None /\ rgb_frame (fst s) = None ->
     if existsb is_initialise cs
     then xyz_frame (fst s') <> None /\ rgb_frame (fst s') <> None
     else xyz_frame (fst s') = None /\ rgb_frame (fst s') = None)
    /\ (xyz_frame (fst s) <> None /\ rgb_frame (fst s) <> None ->
        xyz_frame (fst s') <> None /\ rgb_frame (fst s') <> None).
Proof.
  induction cs as [| c cs IH]; intros s; simpl.
  - split; intros H; exact H.
  - destruct (IH (snd (perform clock resample_ciexyz ciexyz_to_srgb error_map c s)))
      as [IHa IHb].
    split.
    + intros Hnone. destruct (is_initialise c) eqn:Ec; simpl.
      * apply IHb. destruct c; try discriminate. destruct s as [p w]. simpl.
        apply initialise_creates_buffers. simpl in Hnone.
        destruct Hnone as [-> ->]. split; reflexivity.
      * apply IHa. apply (no_buffers_kept c Ec). exact Hnone.
    + intros Hsome. apply IHb. apply buffers_kept. exact Hsome.
Qed.

Lemma transpose_item {A} (a : ndarray A) i j k :
  item (np_transpose_102 a) j i k = item a i j k.
Proof. unfold np_transpose_102. destruct (shape a) as [[n0 n1] n2]. reflexivity. Qed.

Lemma transpose_shape {A} (a : ndarray A) n0 n1 n2 :
  shape a = (n0, n1, n2) -> shape (np_transpose_102 a) = (n1, n0, n2).
Proof. intros H. unfold np_transpose_102. rewrite H. reflexivity. Qed.

(** C5. [save] and [display] raise the not-ready error ([RuntimeError]) exactly
    when no display buffer exists, and then leave the pipeline and the outside
    world as they were (nothing is written or shown); for a pipeline driven
    from its construction through any sequence of method calls, no display
    buffer exists exactly when [initialise] was never called.  When the display
    buffer exists, [save] returns normally after writing one image, the display
    buffer with its two spatial axes exchanged. *)
Theorem save_display_not_ready
    (p : Pipeline) (w : World) (filename : string) :
  (rgb_frame p = None
   <-> exists msg, fst (save filename (p, w)) = Raise (RuntimeError msg))
  /\ (rgb_frame p = None
      <-> exists msg, fst (display error_map (p, w)) = Raise (RuntimeError msg))
  /\ (rgb_frame p = None ->
      snd (save filename (p, w)) = (p, w)
      /\ snd (display error_map (p, w)) = (p, w))
  /\ (forall a, rgb_frame p = Some a ->
        save filename (p, w)
        = (Ok tt, (p, mk_World (ticks w)
                        (trace w ++ [EvImsave filename (np_transpose_102 a)])))
        /\ (forall i j k, item (np_transpose_102 a) j i k = item a i j k)
        /\ (forall n0 n1 n2, shape a = (n0, n1, n2) ->
              shape (np_transpose_102 a) = (n1, n0, n2)))
  /\ (forall sens dp interval acc (cs : list call),
        rgb_frame (fst (run_calls clock resample_ciexyz ciexyz_to_srgb error_map cs
                          (__init__ CMF sens dp interval acc, w))) = None
        <-> existsb is_initialise cs = false).
Proof.
  split; [| split; [| split; [| split]]].
  - split.
    + intros H. rewrite (save_not_ready p w filename H). eexists. reflexivity.
    + intros [msg H]. destruct (rgb_frame p) as [a |] eqn:Ha; [| reflexivity].
      rewrite (save_ready p w filename Ha) in H. discriminate.
  - split.
    + intros H. rewrite (display_not_ready p w H). eexists. reflexivity.
    + intros [msg H]. destruct (rgb_frame p) as [a |] eqn:Ha; [| reflexivity].
      exfalso. revert H. unfold display, bind, getattr, emit. simpl. rewrite Ha.
      simpl. destruct (xyz_frame p); simpl; discriminate.
  - intros H. rewrite (save_not_ready p w filename H), (display_not_ready p w H).
    split; reflexivity.
  - intros a Ha. split; [apply save_ready; exact Ha |].
    split; [intros; apply transpose_item | intros; apply transpose_shape; assumption].
  - intros sens dp interval acc cs.
    destruct (run_calls_buffers cs (__init__ CMF sens dp interval acc, w))
      as [H _].
    specialize (H (conj eq_refl eq_refl)).
    destruct (existsb is_initialise cs).
    + destruct H as [_ H]. split; [intros E; contradiction | discriminate].
    + destruct H as [_ H]. split; [reflexivity | intros _; exact H].
Qed.

(** *** Throttling of the live display *)

Lemma refreshes_display t a e :
  refreshes (t ++ [EvImshowRGB a; EvImshowError e; EvShow]) = S (refreshes t).
Proof. rewrite refreshes_app. simpl. lia. Qed.

Lemma refreshes_update t msg a e :
  refreshes (t ++ [EvPrint msg; EvImshowRGB a; EvImshowError e; EvShow])
  = S (refreshes t).
Proof. rewrite refreshes_app. simpl. lia. Qed.

Lemma refreshes_initialised (p : Pipeline) px w :
  refreshes (trace (initialised_world px p w)) = refreshes (trace w).
Proof.
  unfold initialised_world. destruct (must_allocate p px); [| reflexivity].
  simpl. rewrite refreshes_app. simpl. lia.
Qed.

(** C6 (amended). The default refresh interval is 5.  At [initialise] a display
    refresh is performed, whatever the timer holds, when progress display is
    enabled, and none when it is disabled; the timer is then armed with the
    time read right after the refresh.  During the pass, an [update] performs a
    refresh only when progress display is enabled and the time read exceeds
    the timer by more than the interval, and in that case performs exactly one
    and re-arms the timer.  [finalise] performs exactly one refresh, whatever
    the timer holds, when progress display is enabled, and none otherwise. *)
Theorem display_refresh_throttling
    (p0 : Pipeline) (w0 : World) px n slices
    (p : Pipeline) (w : World) (x y : Z) (mean variance : Q * Q * Q) (slice_id : Z) :
  coherent p0 -> ready px p -> in_grid px (x, y) ->
  let s1 := snd (initialise clock resample_ciexyz error_map px n slices (p0, w0)) in
  let s2 := snd (update clock ciexyz_to_srgb error_map (x, y) (mean, variance)
                   slice_id (p, w)) in
  let s3 := snd (finalise ciexyz_to_srgb error_map (p, w)) in
  let due := display_update_time p < clock (ticks w) - _display_timer p in
  display_update_time (RGBPipeline2D_default CMF) = 5
  /\ refreshes (trace (snd s1))
     = (refreshes (trace w0) + if display_progress p0 then 1 else 0)%nat
  /\ (display_progress p0 = true -> _display_timer (fst s1) = clock (ticks w0))
  /\ (refreshes (trace (snd s2)) <> refreshes (trace w) ->
      display_progress p = true /\ due)
  /\ (display_progress p = true -> due ->
      refreshes (trace (snd s2)) = S (refreshes (trace w))
      /\ _display_timer (fst s2) = clock (S (ticks w)))
  /\ refreshes (trace (snd s3))
     = (refreshes (trace w) + if display_progress p then 1 else 0)%nat.
Proof.
  intros Hc Hr Hg s1 s2 s3 due.
  split; [reflexivity |].
  (* initialise *)
  assert (H1 : refreshes (trace (snd s1))
               = (refreshes (trace w0) + if display_progress p0 then 1 else 0)%nat
               /\ (display_progress p0 = true ->
                   _display_timer (fst s1) = clock (ticks w0))).
  { subst s1. rewrite initialise_unfold.
    destruct (@initialised_buffers p0 px n slices Hc) as (f & a & Hf & Ha & _).
    rewrite (start_display_spec _ _ Hf Ha).
    assert (Hdp : display_progress (initialised resample_ciexyz px n slices p0)
                  = display_progress p0).
    { unfold initialised. destruct (must_allocate p0 px); reflexivity. }
    assert (Ht : ticks (initialised_world px p0 w0) = ticks w0).
    { unfold initialised_world. destruct (must_allocate p0 px); reflexivity. }
    rewrite Hdp. destruct (display_progress p0); cbn [fst snd trace].
    - rewrite refreshes_display, refreshes_initialised, Ht.
      split; [lia | intros _; reflexivity].
    - rewrite refreshes_initialised. split; [lia | discriminate]. }
  destruct H1 as [H1a H1b]. split; [exact H1a |]. split; [exact H1b |].
  (* update *)
  destruct Hr as (f & a & wm & wv & Hf & Ha & Hm & Hv & Hpx & Hwf & Hsa & Hsm & Hsv).
  assert (Hr : ready px p).
  { exists f, a, wm, wv.
    split; [exact Hf |]. split; [exact Ha |]. split; [exact Hm |].
    split; [exact Hv |]. split; [exact Hpx |]. split; [exact Hwf |].
    split; [exact Hsa |]. split; [exact Hsm | exact Hsv]. }
  assert (H2 : (refreshes (trace (snd s2)) <> refreshes (trace w) ->
                display_progress p = true /\ due)
               /\ (display_progress p = true -> due ->
                   refreshes (trace (snd s2)) = S (refreshes (trace w))
                   /\ _display_timer (fst s2) = clock (S (ticks w)))).
  { subst s2.
    rewrite (@update_accumulates p w px x y mean variance slice_id wm wv
               Hm Hv Hsm Hsv Hg).
    set (p1 := set__working_variance _ _).
    destruct (display_progress p) eqn:Hdp.
    - destruct (Qlt_le_dec (display_update_time p) (clock (ticks w) - _display_timer p))
        as [Hlt | Hle].
      + destruct Hwf as (Hwm & _). rewrite Hpx in Hwm.
        destruct (@update_display_refresh p1 w f a (fst px) (snd px) Hdp Hlt
                    Hf Ha Hwm Hsa) as (a' & E & _).
        rewrite E. cbn [fst snd trace]. rewrite refreshes_update.
        split; [intros _; split; [reflexivity | exact Hlt] |].
        intros _ _. split; reflexivity.
      + rewrite update_display_quiet.
        2: { intros [_ Hlt]. apply (Qlt_not_le _ _ Hlt). exact Hle. }
        cbn [fst snd trace]. split; [intros H; contradiction |].
        intros _ Hlt. exfalso. apply (Qlt_not_le _ _ Hlt). exact Hle.
    - rewrite update_display_quiet.
      2: { intros [Hdp' _]. change (display_progress p1) with (display_progress p) in Hdp'.
           congruence. }
      cbn [fst snd trace]. split; [intros H; contradiction | discriminate]. }
  destruct H2 as [H2a H2b]. split; [exact H2a |]. split; [exact H2b |].
  (* finalise *)
  subst s3.
  destruct (@finalise_spec p w px f wm wv Hr Hf Hm Hv) as (f' & a' & E & _).
  rewrite E. cbn [fst snd].
  destruct (display_progress p); cbn [trace].
  - rewrite refreshes_display. lia.
  - lia.
Qed.

End PipelineTheory.

(** ** The camera *)

(** *** Image geometry *)

Section CameraGeometry.

Variable valid_pixels : nat * nat -> bool.

Lemma update_image_geometry_spec (c : OrthographicCamera) :
  _update_image_geometry c
  = if (fst (_pixels c) =? 0)%nat then (Raise ZeroDivisionError, c)
    else (Ok tt,
          set_geometry (_width c / of_int (fst (_pixels c)))
            ((1 # 2) * of_int (fst (_pixels c)) * (_width c / of_int (fst (_pixels c))))
            ((1 # 2) * of_int (snd (_pixels c)) * (_width c / of_int (fst (_pixels c))))
            c).
Proof.
  unfold _update_image_geometry, bind, get, modify, raise. simpl.
  destruct (fst (_pixels c) =? 0)%nat; reflexivity.
Qed.


Lemma width_setter_spec (c : OrthographicCamera) (width : Q) :
  width_setter width c
  = if Qle_bool width 0
    then (Raise (ValueError "width can not be less than or equal to 0 meters."), c)
    else _update_image_geometry (set__width width c).
Proof.
  unfold width_setter. destruct (Qle_bool width 0); reflexivity.
Qed.

Lemma pixels_setter_spec (c : OrthographicCamera) (px : nat * nat) :
  pixels_setter valid_pixels px c
  = if valid_pixels px then _update_image_geometry (set__pixels px c)
    else (Raise (ValueError "invalid pixel dimensions"), c).
Proof.
  unfold pixels_setter, Camera_pixels_fset, bind.
  destruct (valid_pixels px); reflexivity.
Qed.










Lemma width_setter_keeps_point_generator (c : OrthographicCamera) (width : Q) :
  _point_generator (snd (width_setter width c)) = _point_generator c.
Proof.
  rewrite width_setter_spec. destruct (Qle_bool width 0); [reflexivity |].
  rewrite update_image_geometry_spec. cbn [_pixels set__width].
  destruct (fst (_pixels c) =? 0)%nat; reflexivity.
Qed.

Lemma pixels_setter_keeps_point_generator (c : OrthographicCamera) px :
  _point_generator (snd (pixels_setter valid_pixels px c)) = _point_generator c.
Proof.
  rewrite pixels_setter_spec. destruct (valid_pixels px); [| reflexivity].
  rewrite update_image_geometry_spec. cbn [_pixels set__pixels].
  destruct (fst px =? 0)%nat; reflexivity.
Qed.

End CameraGeometry.

(** *** Ray generation *)

Lemma built_rays_length {RayParams} tx ty tz (template : Ray RayParams) pairs :
  forall next, length (built_rays tx ty tz template pairs next) = length pairs.
Proof.
  induction pairs as [| [o d] rest IH]; intros next; simpl;
    [reflexivity | rewrite IH; reflexivity].
Qed.

Lemma built_rays_built_from {RayParams} tx ty tz (template : Ray RayParams) pairs :
  forall next,
    Forall2 (built_from tx ty tz template) pairs
            (built_rays tx ty tz template pairs next).
Proof.
  induction pairs as [| [o d] rest IH]; intros next; simpl; constructor.
  - repeat split.
  - apply IH.
Qed.

Lemma built_rays_oids_fresh {RayParams} tx ty tz (template : Ray RayParams) pairs :
  forall next o,
    In o (flat_map ray_oids (built_rays tx ty tz template pairs next)) ->
    (next <= o < next + 3 * length pairs)%nat.
Proof.
  induction pairs as [| [p d] rest IH]; intros next o; simpl; [tauto |].
  intros [H | [H | [H | H]]]; try lia.
  apply IH in H. lia.
Qed.

Lemma built_rays_oids_distinct {RayParams} tx ty tz (template : Ray RayParams) pairs :
  forall next, NoDup (flat_map ray_oids (built_rays tx ty tz template pairs next)).
Proof.
  induction pairs as [| [p d] rest IH]; intros next; simpl; [constructor |].
  assert (Hfresh : forall o, In o (flat_map ray_oids
                     (built_rays tx ty tz template rest (S (S (S next))))) ->
                   (S (S (S next)) <= o)%nat).
  { intros o H. apply built_rays_oids_fresh in H. lia. }
  constructor.
  { intros [H | [H | H]]; try lia. apply Hfresh in H. lia. }
  constructor.
  { intros [H | H]; try lia. apply Hfresh in H. lia. }
  constructor.
  { intros H. apply Hfresh in H. lia. }
  apply IH.
Qed.

Section RayGeneration.

Variable RNG : Type.
Variable Rectangle_call : Rectangle -> nat -> RNG -> list Point * RNG.
Variable SingleRay_call : SingleRay -> nat -> RNG -> list Vector * RNG.
Variable RayParams : Type.

Lemma assemble_rays_spec tx ty tz (template : Ray RayParams) pairs :
  forall rays (w : CamWorld RNG),
    assemble_rays (translate tx ty tz) template pairs rays w
    = (Ok (rays ++ built_rays tx ty tz template pairs (next_oid w)),
       mk_CamWorld (rng w) (next_oid w + 3 * length pairs)).
Proof.
  induction pairs as [| [o d] rest IH]; intros rays w.
  - simpl. rewrite app_nil_r, Nat.add_0_r. destruct w. reflexivity.
  - simpl. unfold bind, Point_transform, Vector_transform, Ray_copy, alloc, ret, bind.
    simpl. rewrite IH. simpl. rewrite <- app_assoc. simpl.
    repeat f_equal. lia.
Qed.

Lemma generate_rays_spec (self : OrthographicCamera) (ix iy : Z)
    (template : Ray RayParams) (w : CamWorld RNG) :
  let tx := image_start_x self - image_delta self * inject_Z ix in
  let ty := image_start_y self - image_delta self * inject_Z iy in
  let d1 := Rectangle_call (_point_generator self) (pixel_samples self) (rng w) in
  let d2 := SingleRay_call (_vector_generator self) (pixel_samples self) (snd d1) in
  _generate_rays Rectangle_call SingleRay_call self ix iy template w
  = (Ok (built_rays tx ty 0 template (zip (fst d1) (fst d2)) (next_oid w)),
     mk_CamWorld (snd d2) (next_oid w + 3 * length (zip (fst d1) (fst d2)))).
Proof.
  intros tx ty d1 d2. unfold _generate_rays, bind, draw. cbn [rng next_oid].
  fold d1. destruct d1 as [origins r1] eqn:E1. cbn [rng next_oid fst snd] in *.
  subst d2. destruct (SingleRay_call _ _ r1) as [directions r2].
  rewrite assemble_rays_spec. reflexivity.
Qed.

(** The generators return as many items as they are asked for. *)
Hypothesis Rectangle_call_length :
  forall g n s, length (fst (Rectangle_call g n s)) = n.
Hypothesis SingleRay_call_length :
  forall g n s, length (fst (SingleRay_call g n s)) = n.

Lemma zip_length (self : OrthographicCamera) (s : RNG) :
  let d1 := Rectangle_call (_point_generator self) (pixel_samples self) s in
  let d2 := SingleRay_call (_vector_generator self) (pixel_samples self) (snd d1) in
  length (zip (fst d1) (fst d2)) = pixel_samples self.
Proof using Rectangle_call_length SingleRay_call_length.
  intros d1 d2. unfold zip. rewrite length_combine.
  subst d1 d2. rewrite Rectangle_call_length, SingleRay_call_length.
  apply Nat.min_id.
Qed.

(** C3. For a pixel coordinate of the grid and a sample count of at least one,
    ray generation returns a batch of exactly that many rays; each ray is
    built from one (origin, direction) pair of the generators, moved by the
    pixel translation, with the parameters of the template; and the rays, their
    origins and their directions are pairwise distinct objects, all of them
    allocated by this call. *)
Theorem generate_rays_batch
    (self : OrthographicCamera) (ix iy : Z) (template : Ray RayParams)
    (w : CamWorld RNG) :
  (0 <= ix < Z.of_nat (fst (_pixels self)))%Z ->
  (0 <= iy < Z.of_nat (snd (_pixels self)))%Z ->
  (1 <= pixel_samples self)%nat ->
  let tx := image_start_x self - image_delta self * inject_Z ix in
  let ty := image_start_y self - image_delta self * inject_Z iy in
  let d1 := Rectangle_call (_point_generator self) (pixel_samples self) (rng w) in
  let d2 := SingleRay_call (_vector_generator self) (pixel_samples self) (snd d1) in
  exists rays w',
    _generate_rays Rectangle_call SingleRay_call self ix iy template w = (Ok rays, w')
    /\ length rays = pixel_samples self
    /\ Forall2 (built_from tx ty 0 template) (zip (fst d1) (fst d2)) rays
    /\ NoDup (flat_map ray_oids rays)
    /\ forall o, In o (flat_map ray_oids rays) ->
                 (next_oid w <= o < next_oid w')%nat.
Proof using Rectangle_call_length SingleRay_call_length.
  intros _ _ _ tx ty d1 d2.
  eexists _, _. split; [apply generate_rays_spec |].
  fold tx ty d1 d2.
  split; [rewrite built_rays_length; apply zip_length |].
  split; [apply built_rays_built_from |].
  split; [apply built_rays_oids_distinct |].
  intros o H. apply built_rays_oids_fresh in H. exact H.
Qed.

(** C4 (amended). Ray generation validates neither the pixel coordinate nor the
    sample count: for every integer coordinate, inside the grid or not, and
    every sample count, zero included, it draws from both generators and
    returns a batch of [pixel_samples] rays moved by
    [(image_start_x - image_delta * ix, image_start_y - image_delta * iy, 0)];
    it never raises. *)
Theorem generate_rays_never_rejects
    (self : OrthographicCamera) (ix iy : Z) (template : Ray RayParams)
    (w : CamWorld RNG) :
  let tx := image_start_x self - image_delta self * inject_Z ix in
  let ty := image_start_y self - image_delta self * inject_Z iy in
  let d1 := Rectangle_call (_point_generator self) (pixel_samples self) (rng w) in
  let d2 := SingleRay_call (_vector_generator self) (pixel_samples self) (snd d1) in
  (forall e s,
     _generate_rays Rectangle_call SingleRay_call self ix iy template w
     <> (Raise e, s))
  /\ exists rays w',
       _generate_rays Rectangle_call SingleRay_call self ix iy template w
       = (Ok rays, w')
       /\ rng w' = snd d2
       /\ length rays = pixel_samples self
       /\ Forall2 (built_from tx ty 0 template) (zip (fst d1) (fst d2)) rays.
Proof using Rectangle_call_length SingleRay_call_length.
  intros tx ty d1 d2. split.
  - intros e s. rewrite generate_rays_spec. discriminate.
  - eexists _, _. split; [apply generate_rays_spec |].
    fold tx ty d1 d2. split; [reflexivity |].
    split; [rewrite built_rays_length; apply zip_length |].
    apply built_rays_built_from.
Qed.

(** C10. Two cameras that agree on everything but the [sub_sample] flag
    generate the same batch of rays (and leave the same random state and
    allocation state) at every pixel coordinate. *)
Theorem generate_rays_ignores_sub_sample
    (c1 c2 : OrthographicCamera) (ix iy : Z) (template : Ray RayParams)
    (w : CamWorld RNG) :
  same_except_sub_sample c1 c2 ->
  _generate_rays Rectangle_call SingleRay_call c1 ix iy template w
  = _generate_rays Rectangle_call SingleRay_call c2 ix iy template w.
Proof.
  unfold same_except_sub_sample, set_sub_sample. intros H.
  inversion H as [[Hpx Hn Hw Hd Hsx Hsy Hpg Hvg]].
  unfold _generate_rays. rewrite Hn, Hd, Hsx, Hsy, Hpg, Hvg. reflexivity.
Qed.

End RayGeneration.

(** C8 (the code departs from the claim). A camera is built with two by two
    pixels and width 1, so the pixel pitch is 1/2; its width is then set to 2.
    The setter recomputes the pitch, now 1, but the point generator built at
    construction is kept (no setter ever replaces it): whatever the generators
    are, the next ray generation draws its origins from a footprint of 1/2 by
    1/2. *)
Theorem point_generator_stale_after_width_change :
  let c0 := snd (OrthographicCamera___init__ (2, 2)%nat 1 2 true) in
  let c1 := snd (width_setter 2 c0) in
  fst (OrthographicCamera___init__ (2, 2)%nat 1 2 true) = Ok c0
  /\ fst (width_setter 2 c0) = Ok tt
  /\ image_delta c0 == 1 # 2
  /\ image_delta c1 == 1
  /\ _point_generator c1 = mk_Rectangle (1 # 2) (1 # 2)
  /\ ~ rect_width (_point_generator c1) == image_delta c1
  /\ (forall c width,
        _point_generator (snd (width_setter width c)) = _point_generator c)
  /\ (forall valid_pixels px c,
        _point_generator (snd (pixels_setter valid_pixels px c))
        = _point_generator c)
  /\ forall RNG (Rectangle_call : Rectangle -> nat -> RNG -> list Point * RNG)
       (SingleRay_call : SingleRay -> nat -> RNG -> list Vector * RNG)
       RayParams (ix iy : Z) (template : Ray RayParams) (w : CamWorld RNG),
       let d1 := Rectangle_call (mk_Rectangle (1 # 2) (1 # 2)) 2%nat (rng w) in
       let d2 := SingleRay_call mk_SingleRay 2%nat (snd d1) in
       _generate_rays Rectangle_call SingleRay_call c1 ix iy template w
       = (Ok (built_rays (image_start_x c1 - image_delta c1 * inject_Z ix)
                (image_start_y c1 - image_delta c1 * inject_Z iy) 0 template
                (zip (fst d1) (fst d2)) (next_oid w)),
          mk_CamWorld (snd d2) (next_oid w + 3 * length (zip (fst d1) (fst d2)))).
Proof.
  intros c0 c1.
  split; [vm_compute; reflexivity |]. split; [vm_compute; reflexivity |].
  split; [vm_compute; reflexivity |]. split; [vm_compute; reflexivity |].
  split; [vm_compute; reflexivity |]. split; [vm_compute; discriminate |].
  split; [intros; apply width_setter_keeps_point_generator |].
  split; [intros; apply pixels_setter_keeps_point_generator |].
  intros RNG Rectangle_call SingleRay_call RayParams ix iy template w.
  assert (Hpg : _point_generator c1 = mk_Rectangle (1 # 2) (1 # 2))
    by (vm_compute; reflexivity).
  assert (Hn : pixel_samples c1 = 2%nat) by (vm_compute; reflexivity).
  assert (Hvg : _vector_generator c1 = mk_SingleRay) by (vm_compute; reflexivity).
  rewrite <- Hpg, <- Hn, <- Hvg. apply generate_rays_spec.
Qed.

(** ** The model run on examples *)

Lemma Fixture_Rectangle_call_length g n s :
  length (fst (Fixture.Rectangle_call g n s)) = n.
Proof. unfold Fixture.Rectangle_call. simpl. rewrite length_map, length_seq. reflexivity. Defined.

Lemma Fixture_SingleRay_call_length g n s :
  length (fst (Fixture.SingleRay_call g n s)) = n.
Proof. unfold Fixture.SingleRay_call. simpl. apply repeat_length. Defined.

(** A uniform scene (section 8 of the specification): two by two pixels, four
    samples per pixel, each pixel reporting the mean (1, 1, 1) with variance
    zero.  After [finalise] every statistic has mean 1, variance 0 and count 4,
    and all pixels are displayed alike. *)
Example uniform_scene :
  let us : list update_call :=
    map (fun pid => (pid, ((1, 1, 1), (0, 0, 0)), 0%Z))
        [(0, 0)%Z; (0, 1)%Z; (1, 0)%Z; (1, 1)%Z] in
  let run :=
    initialise Fixture.clock Fixture.resample_ciexyz Fixture.error_map
      (2, 2)%nat 4 [] ;;;
    updates Fixture.clock Fixture.ciexyz_to_srgb Fixture.error_map us ;;;
    finalise Fixture.ciexyz_to_srgb Fixture.error_map in
  let s := run (__init__ (Q * Q * Z) 1 true 5 false, Fixture.world0) in
  fst s = Ok tt
  /\ match xyz_frame (fst (snd s)), rgb_frame (fst (snd s)) with
     | Some f, Some a =>
         forallb (fun c : nat * nat * nat =>
                    let '(i, j, k) := c in
                    Qeq_bool (item (mean f) i j k) 1
                    && Qeq_bool (item (variance f) i j k) 0
                    && (item (samples f) i j k =? 4)%Z
                    && Qeq_bool (item a i j k) (item a 0 0 k))
                 (list_prod (list_prod (range 2) (range 2)) (range 3))
         = true
     | _, _ => False
     end.
Proof. vm_compute. split; reflexivity. Qed.

(** Two render passes over the same grid: with accumulate mode the sample
    counts of both passes add up, without it the second pass starts afresh. *)
Example accumulate_mode :
  let pass (n : Z) :=
    initialise Fixture.clock Fixture.resample_ciexyz Fixture.error_map
      (1, 1)%nat n [] ;;;
    update Fixture.clock Fixture.ciexyz_to_srgb Fixture.error_map
      (0, 0)%Z ((1, 1, 1), (0, 0, 0)) 0 ;;;
    finalise Fixture.ciexyz_to_srgb Fixture.error_map in
  let count (acc : bool) :=
    option_map (fun f => item (samples f) 0 0 0)
      (xyz_frame (fst (snd ((pass 4%Z ;;; pass 6%Z)
                              (__init__ (Q * Q * Z) 1 false 5 acc,
                               Fixture.world0))))) in
  count true = Some 10%Z /\ count false = Some 6%Z.
Proof. vm_compute. split; reflexivity. Qed.

Lemma finalise_merges_working_accumulator_witness :
  let p0 := __init__ (Q * Q * Z) 1 true 5 false in
  let us : list update_call :=
    [((0, 0)%Z, ((1, 2, 3), (0, 0, 0)), 0%Z);
     ((1, 0)%Z, ((1, 2, 3), (1, 1, 1)), 0%Z)] in
  coherent p0
  /\ Forall (fun u => in_grid (2, 1)%nat (fst (fst u))) us
  /\ exists p2 w2,
       updates Fixture.clock Fixture.ciexyz_to_srgb Fixture.error_map us
         (snd (initialise Fixture.clock Fixture.resample_ciexyz Fixture.error_map
                 (2, 1)%nat 4 [] (p0, Fixture.world0)))
       = (Ok tt, (p2, w2))
       /\ fst (finalise Fixture.ciexyz_to_srgb Fixture.error_map (p2, w2)) = Ok tt.
Proof.
  intros p0 us.
  assert (H1 : coherent p0) by exact I.
  assert (H2 : Forall (fun u => in_grid (2, 1)%nat (fst (fst u))) us)
    by (repeat constructor; simpl; lia).
  split; [exact H1 |]. split; [exact H2 |].
  destruct (finalise_merges_working_accumulator Fixture.clock
              Fixture.resample_ciexyz Fixture.ciexyz_to_srgb Fixture.error_map
              p0 Fixture.world0 4 [] H1 H2)
    as (p1 & w1 & p2 & w2 & f & wm & wv & f' & a' & w3 & E1 & E2 & _ & _ & _ & E3 & _).
  exists p2, w2. rewrite E1. split; [exact E2 | rewrite E3; reflexivity].
Defined.

Lemma update_only_accumulates_at_its_pixel_witness :
  let p := fst (snd (initialise Fixture.clock Fixture.resample_ciexyz
                       Fixture.error_map (2, 2)%nat 4 []
                       (__init__ (Q * Q * Z) 1 true 5 false, Fixture.world0))) in
  let zeros := np_zeros 0 (2, 2, 3)%nat in
  _working_mean p = Some zeros /\ _working_variance p = Some zeros
  /\ in_grid (2, 2)%nat (1, 0)%Z
  /\ xyz_frame
       (fst (snd (update Fixture.clock Fixture.ciexyz_to_srgb Fixture.error_map
                    (1, 0)%Z ((1, 2, 3), (0, 0, 0)) 0 (p, Fixture.world0))))
     = xyz_frame p.
Proof.
  intros p zeros.
  assert (Hg : in_grid (2, 2)%nat (1, 0)%Z) by (unfold in_grid; simpl; lia).
  split; [reflexivity |]. split; [reflexivity |]. split; [exact Hg |].
  apply (update_only_accumulates_at_its_pixel Fixture.clock Fixture.ciexyz_to_srgb
           Fixture.error_map p Fixture.world0 (px := (2, 2)%nat)
           (1, 2, 3) (0, 0, 0) 0
           (eq_refl : _working_mean p = Some zeros)
           (eq_refl : _working_variance p = Some zeros) eq_refl eq_refl Hg).
Defined.

Lemma display_refresh_throttling_witness :
  let p0 := __init__ (Q * Q * Z) 1 true 5 false in
  let p := fst (snd (initialise Fixture.clock Fixture.resample_ciexyz
                       Fixture.error_map (2, 2)%nat 4 [] (p0, Fixture.world0))) in
  coherent p0 /\ ready (2, 2)%nat p /\ in_grid (2, 2)%nat (1, 0)%Z
  /\ refreshes (trace (snd (snd (finalise Fixture.ciexyz_to_srgb Fixture.error_map
                                   (p, Fixture.world0))))) = 1%nat.
Proof.
  intros p0 p.
  assert (H1 : coherent p0) by exact I.
  assert (H2 : ready (2, 2)%nat p).
  { exists (Frame2D_new (2, 2)%nat 3), (np_zeros 0 (2, 2, 3)%nat),
      (np_zeros 0 (2, 2, 3)%nat), (np_zeros 0 (2, 2, 3)%nat).
    repeat split. }
  assert (H3 : in_grid (2, 2)%nat (1, 0)%Z) by (unfold in_grid; simpl; lia).
  split; [exact H1 |]. split; [exact H2 |]. split; [exact H3 |].
  destruct (display_refresh_throttling Fixture.clock Fixture.resample_ciexyz
              Fixture.ciexyz_to_srgb Fixture.error_map p0 Fixture.world0 4 []
              Fixture.world0 (1, 2, 3) (0, 0, 0) 0 H1 H2 H3)
    as (_ & _ & _ & _ & _ & H).
  exact H.
Defined.

(** C6 (the claim as stated fails). With progress display disabled,
    [initialise] performs no display refresh: the only call into the outside
    world is the construction of the frame buffer. *)
Lemma initialise_without_progress_display_does_not_refresh :
  let p := __init__ (Q * Q * Z) 1 false 5 false in
  let s' := snd (initialise Fixture.clock Fixture.resample_ciexyz Fixture.error_map
                   (2, 2)%nat 4 [] (p, Fixture.world0)) in
  fst (initialise Fixture.clock Fixture.resample_ciexyz Fixture.error_map
         (2, 2)%nat 4 [] (p, Fixture.world0)) = Ok tt
  /\ trace (snd s') = [EvFrame2D (2, 2)%nat 3]
  /\ refreshes (trace (snd s')) = 0%nat
  /\ ~ refreshes (trace (snd s')) = S (refreshes (trace Fixture.world0)).
Proof.
  intros p s'. split; [reflexivity |]. split; [reflexivity |].
  split; [reflexivity | discriminate].
Qed.


Lemma generate_rays_batch_witness :
  let c0 := snd (OrthographicCamera___init__ (2, 2)%nat 1 2 true) in
  (0 <= 1 < Z.of_nat (fst (_pixels c0)))%Z
  /\ (0 <= 0 < Z.of_nat (snd (_pixels c0)))%Z
  /\ (1 <= pixel_samples c0)%nat
  /\ exists rays w',
       _generate_rays Fixture.Rectangle_call Fixture.SingleRay_call c0 1 0
         Fixture.template Fixture.camworld0 = (Ok rays, w')
       /\ length rays = 2%nat
       /\ NoDup (flat_map ray_oids rays).
Proof.
  intros c0.
  assert (Hpx : _pixels c0 = (2, 2)%nat) by (vm_compute; reflexivity).
  assert (Hn : pixel_samples c0 = 2%nat) by (vm_compute; reflexivity).
  assert (H1 : (0 <= 1 < Z.of_nat (fst (_pixels c0)))%Z)
    by (rewrite Hpx; simpl; lia).
  assert (H2 : (0 <= 0 < Z.of_nat (snd (_pixels c0)))%Z)
    by (rewrite Hpx; simpl; lia).
  assert (H3 : (1 <= pixel_samples c0)%nat) by (rewrite Hn; lia).
  split; [exact H1 |]. split; [exact H2 |]. split; [exact H3 |].
  destruct (generate_rays_batch Fixture.Rectangle_call Fixture.SingleRay_call
              Fixture_Rectangle_call_length Fixture_SingleRay_call_length
              c0 Fixture.template Fixture.camworld0 H1 H2 H3)
    as (rays & w' & E & Hlen & _ & Hnd & _).
  exists rays, w'. split; [exact E |]. split; [rewrite Hlen; exact Hn | exact Hnd].
Defined.

(** C4 (the claim as stated fails). On a camera of two by two pixels, the
    coordinate (5, -3) is not rejected: both generators are drawn from and two
    rays are returned. *)
Lemma generate_rays_accepts_pixel_outside_grid :
  let c0 := snd (OrthographicCamera___init__ (2, 2)%nat 1 2 true) in
  let r := _generate_rays Fixture.Rectangle_call Fixture.SingleRay_call c0 5 (-3)
             Fixture.template Fixture.camworld0 in
  _pixels c0 = (2, 2)%nat
  /\ (forall e, fst r <> Raise e)
  /\ (exists rays, fst r = Ok rays /\ length rays = 2%nat)
  /\ rng Fixture.camworld0 = 0%nat /\ rng (snd r) = 2%nat.
Proof.
  intros c0 r.
  split; [vm_compute; reflexivity |].
  split; [intros e; vm_compute; discriminate |].
  split; [| split; vm_compute; reflexivity].
  exists (match fst r with Ok rays => rays | Raise _ => [] end).
  split; vm_compute; reflexivity.
Qed.

Lemma generate_rays_never_rejects_witness :
  let c0 := snd (OrthographicCamera___init__ (2, 2)%nat 1 2 true) in
  exists rays w',
    _generate_rays Fixture.Rectangle_call Fixture.SingleRay_call c0 5 (-3)
      Fixture.template Fixture.camworld0 = (Ok rays, w')
    /\ length rays = pixel_samples c0.
Proof.
  intros c0.
  destruct (generate_rays_never_rejects Fixture.Rectangle_call
              Fixture.SingleRay_call Fixture_Rectangle_call_length
              Fixture_SingleRay_call_length c0 5 (-3) Fixture.template
              Fixture.camworld0)
    as (_ & rays & w' & E & _ & Hlen & _).
  exists rays, w'. split; [exact E | exact Hlen].
Defined.

Lemma generate_rays_ignores_sub_sample_witness :
  let c1 := snd (OrthographicCamera___init__ (2, 2)%nat 1 2 true) in
  let c2 := snd (OrthographicCamera___init__ (2, 2)%nat 1 2 false) in
  sub_sample c1 <> sub_sample c2
  /\ same_except_sub_sample c1 c2
  /\ _generate_rays Fixture.Rectangle_call Fixture.SingleRay_call c1 1 0
       Fixture.template Fixture.camworld0
     = _generate_rays Fixture.Rectangle_call Fixture.SingleRay_call c2 1 0
         Fixture.template Fixture.camworld0.
Proof.
  intros c1 c2.
  assert (H : same_except_sub_sample c1 c2) by (vm_compute; reflexivity).
  split; [vm_compute; discriminate |]. split; [exact H |].
  apply (generate_rays_ignores_sub_sample Fixture.Rectangle_call
           Fixture.SingleRay_call 1 0 Fixture.template Fixture.camworld0 H).
Defined.

(** * Further properties *)

(** ** Indexing *)

Lemma np_index_none (n : nat) (x : Z) :
  (x < - Z.of_nat n \/ Z.of_nat n <= x)%Z -> np_index n x = None.
Proof.
  intros H. unfold np_index.
  destruct ((0 <=? x) && (x <? Z.of_nat n))%Z eqn:E1.
  { apply andb_prop in E1. destruct E1 as [E1 E2].
    apply Z.leb_le in E1. apply Z.ltb_lt in E2. lia. }
  destruct ((- Z.of_nat n <=? x) && (x <? 0))%Z eqn:E2; [| reflexivity].
  apply andb_prop in E2. destruct E2 as [E2 E3].
  apply Z.leb_le in E2. apply Z.ltb_lt in E3. lia.
Qed.

Lemma np_index_mod (n : nat) (x : Z) :
  (- Z.of_nat n <= x < Z.of_nat n)%Z ->
  np_index n x = Some (Z.to_nat (x mod Z.of_nat n)).
Proof.
  intros H. unfold np_index.
  destruct ((0 <=? x) && (x <? Z.of_nat n))%Z eqn:E1.
  - apply andb_prop in E1. destruct E1 as [E1 E2].
    apply Z.leb_le in E1. apply Z.ltb_lt in E2.
    rewrite Z.mod_small by lia. reflexivity.
  - assert (Hneg : (x < 0)%Z).
    { destruct (Z.ltb_spec x 0) as [Hlt | Hge]; [exact Hlt |].
      exfalso. rewrite andb_false_iff in E1. destruct E1 as [E1 | E1].
      - apply Z.leb_gt in E1. lia.
      - apply Z.ltb_ge in E1. lia. }
    replace ((- Z.of_nat n <=? x) && (x <? 0))%Z with true.
    2: { symmetry. apply andb_true_intro. split;
           [apply Z.leb_le | apply Z.ltb_lt]; lia. }
    f_equal. f_equal.
    replace x with (x + Z.of_nat n - 1 * Z.of_nat n)%Z at 2 by lia.
    rewrite Zminus_mod, Z_mod_mult, Z.sub_0_r, Z.mod_mod by lia.
    rewrite Z.mod_small by lia. reflexivity.
Qed.

Lemma np_locate_indices {A} (a : ndarray A) (n0 n1 n2 : nat) (x y c : Z)
    (i j k : nat) :
  shape a = (n0, n1, n2) ->
  np_index n0 x = Some i -> np_index n1 y = Some j ->
  (k < n2)%nat -> c = Z.of_nat k ->
  np_locate a x y c = Some (i, j, k).
Proof.
  intros Hs Hx Hy Hk ->. unfold np_locate. rewrite Hs, Hx, Hy.
  rewrite np_index_of_nat by assumption. reflexivity.
Qed.

Lemma np_locate_none {A} (a : ndarray A) (n0 n1 n2 : nat) (x y c : Z) :
  shape a = (n0, n1, n2) ->
  np_index n0 x = None \/ np_index n1 y = None ->
  np_locate a x y c = None.
Proof.
  intros Hs H. unfold np_locate. rewrite Hs.
  destruct H as [H | H]; rewrite H.
  - reflexivity.
  - destruct (np_index n0 x); reflexivity.
Qed.

(** ** The pipeline *)

Section PipelineFurther.

Variable clock : nat -> Q.
Variable CMF : Type.
Variable resample_ciexyz : Q -> Q -> Z -> CMF.
Variable ciexyz_to_srgb : Q -> Q -> Q -> Q * Q * Q.
Variable error_map : Frame2D -> nat -> nat -> Q.

Local Abbreviation Pipeline := (RGBPipeline2D CMF).
Local Abbreviation State := (PState CMF).

Ltac frame_steps :=
  repeat first
    [ apply preserves_ret
    | apply preserves_raise
    | apply preserves_get
    | apply preserves_getattr
    | apply preserves_read_attr
    | apply preserves_bind; [| intros ?]
    | apply preserves_for_each; intros ?
    | apply preserves_setattr; intros ? ? ?
    | apply preserves_on_attr; intros ? ? ? ? ? ?
    | apply preserves_emit; intros ? ? ?
    | apply preserves_time; intros ? ? ?
    | match goal with
      | |- preserves _ (if ?b then _ else _) => destruct b
      | |- preserves _ (match ?o with _ => _ end) => destruct o
      end ].

Lemma set__working_mean_same (p : Pipeline) a :
  _working_mean p = Some a -> set__working_mean (Some a) p = p.
Proof. destruct p. simpl. intros ->. reflexivity. Qed.

(** *** Calls outside a render pass *)

(** X2. As long as [initialise] has not created the buffers, [update] raises
    [TypeError] and [finalise] raises [AttributeError], whatever their
    arguments, and neither changes the pipeline or calls the outside world. *)
Theorem update_finalise_before_initialise (p : Pipeline) (w : World) :
  _working_mean p = None -> xyz_frame p = None ->
  (forall pixel_id packed_result slice_id,
     update clock ciexyz_to_srgb error_map pixel_id packed_result slice_id (p, w)
     = (Raise TypeError, (p, w)))
  /\ finalise ciexyz_to_srgb error_map (p, w) = (Raise AttributeError, (p, w)).
Proof.
  intros Hm Hf. split.
  - intros [x y] [mean variance] slice_id.
    unfold update, bind, on__working_mean, on_attr. simpl. rewrite Hm. reflexivity.
  - unfold finalise, bind, frame_pixels, read_attr. simpl. rewrite Hf. reflexivity.
Qed.

(** X3. An [update] whose pixel index lies outside the numpy range of the
    working accumulator (below [-n] or from [n] on, along either axis) raises
    [IndexError] at its first statement: nothing is accumulated, the display
    is not refreshed and the clock is not read. *)
Theorem update_out_of_range
    (p : Pipeline) (w : World) (wm : ndarray Q) (nx ny : nat) (x y : Z)
    (packed_result : packed) (slice_id : Z) :
  _working_mean p = Some wm -> shape wm = (nx, ny, 3%nat) ->
  ((x < - Z.of_nat nx \/ Z.of_nat nx <= x)
   \/ (y < - Z.of_nat ny \/ Z.of_nat ny <= y))%Z ->
  update clock ciexyz_to_srgb error_map (x, y) packed_result slice_id (p, w)
  = (Raise IndexError, (p, w)).
Proof.
  intros Hm Hs Hout. destruct packed_result as [mean variance].
  assert (Hloc : np_locate wm x y 0 = None).
  { apply (np_locate_none wm x y 0 Hs).
    destruct Hout as [H | H]; [left | right]; apply np_index_none; exact H. }
  unfold update, bind, on__working_mean, on_attr, np_iadd, np_getitem. simpl.
  rewrite Hm, Hloc. rewrite set__working_mean_same by assumption. reflexivity.
Qed.

(** *** Indices of [update] *)

(** [update] at a pixel index that numpy resolves to the pixel (i, j). *)
Lemma update_accumulates_at (p : Pipeline) (w : World) nx ny x y i j
    mean variance slice_id wm wv :
  _working_mean p = Some wm -> _working_variance p = Some wv ->
  shape wm = (nx, ny, 3%nat) -> shape wv = (nx, ny, 3%nat) ->
  np_index nx x = Some i -> np_index ny y = Some j ->
  update clock ciexyz_to_srgb error_map (x, y) (mean, variance) slice_id (p, w)
  = _update_display clock ciexyz_to_srgb error_map
      (set__working_variance (Some (accumulated wv i j variance))
         (set__working_mean (Some (accumulated wm i j mean)) p), w).
Proof.
  intros Hm Hv Hsm Hsv Hx Hy. unfold update.
  erewrite bind_ok; [| apply on_working_mean_iadd;
    [eassumption | apply (@np_locate_indices _ wm nx ny 3 x y 0%Z i j 0%nat Hsm Hx Hy); [lia | reflexivity]]].
  erewrite bind_ok; [| apply on_working_mean_iadd;
    [reflexivity | rewrite np_locate_store;
       apply (@np_locate_indices _ wm nx ny 3 x y 1%Z i j 1%nat Hsm Hx Hy); [lia | reflexivity]]].
  erewrite bind_ok; [| apply on_working_mean_iadd;
    [reflexivity | rewrite !np_locate_store;
       apply (@np_locate_indices _ wm nx ny 3 x y 2%Z i j 2%nat Hsm Hx Hy); [lia | reflexivity]]].
  erewrite bind_ok; [| apply on_working_variance_iadd;
    [eassumption | apply (@np_locate_indices _ wv nx ny 3 x y 0%Z i j 0%nat Hsv Hx Hy); [lia | reflexivity]]].
  erewrite bind_ok; [| apply on_working_variance_iadd;
    [reflexivity | rewrite np_locate_store;
       apply (@np_locate_indices _ wv nx ny 3 x y 1%Z i j 1%nat Hsv Hx Hy); [lia | reflexivity]]].
  erewrite bind_ok; [| apply on_working_variance_iadd;
    [reflexivity | rewrite !np_locate_store;
       apply (@np_locate_indices _ wv nx ny 3 x y 2%Z i j 2%nat Hsv Hx Hy); [lia | reflexivity]]].
  reflexivity.
Qed.

(** X4. Negative pixel indices are not rejected: an [update] at an index in
    the numpy range of the working accumulator does exactly what the [update]
    at the index taken modulo the axis length does, so (-1, -1) accumulates
    into the last pixel of the grid. *)
Theorem update_negative_index_wraps
    (p : Pipeline) (w : World) (wm wv : ndarray Q) (nx ny : nat) (x y : Z)
    (packed_result : packed) (slice_id : Z) :
  _working_mean p = Some wm -> _working_variance p = Some wv ->
  shape wm = (nx, ny, 3%nat) -> shape wv = (nx, ny, 3%nat) ->
  (- Z.of_nat nx <= x < Z.of_nat nx)%Z ->
  (- Z.of_nat ny <= y < Z.of_nat ny)%Z ->
  update clock ciexyz_to_srgb error_map (x, y) packed_result slice_id (p, w)
  = update clock ciexyz_to_srgb error_map
      (x mod Z.of_nat nx, y mod Z.of_nat ny)%Z packed_result slice_id (p, w).
Proof.
  intros Hm Hv Hsm Hsv Hx Hy. destruct packed_result as [mean variance].
  assert (Hx' : (- Z.of_nat nx <= x mod Z.of_nat nx < Z.of_nat nx)%Z).
  { pose proof (Z.mod_pos_bound x (Z.of_nat nx)). lia. }
  assert (Hy' : (- Z.of_nat ny <= y mod Z.of_nat ny < Z.of_nat ny)%Z).
  { pose proof (Z.mod_pos_bound y (Z.of_nat ny)). lia. }
  rewrite (@update_accumulates_at p w nx ny x y _ _ mean variance slice_id wm wv
             Hm Hv Hsm Hsv (@np_index_mod nx x Hx) (@np_index_mod ny y Hy)).
  rewrite (@update_accumulates_at p w nx ny _ _ _ _ mean variance slice_id wm wv
             Hm Hv Hsm Hsv (@np_index_mod nx _ Hx') (@np_index_mod ny _ Hy')).
  rewrite !Z.mod_mod by lia. reflexivity.
Qed.

(** *** Processors *)

Lemma start_display_keeps_resampled_xyz R :
  preserves (fun s : State => _resampled_xyz (fst s) = R)
            (_start_display clock error_map).
Proof.
  unfold _start_display, display. frame_steps; simpl in *; assumption.
Qed.

Lemma np_index_negative (n i : nat) :
  (i < n)%nat -> np_index n (Z.of_nat i - Z.of_nat n) = Some i.
Proof.
  intros H. rewrite np_index_mod by lia. f_equal.
  replace (Z.of_nat i - Z.of_nat n)%Z with (Z.of_nat i + (-1) * Z.of_nat n)%Z by lia.
  rewrite Z_mod_plus_full, Z.mod_small by lia. apply Nat2Z.id.
Qed.

(** X1. After [initialise] with the slices [slices], [pixel_processor(i)] for
    the position [i] of a slice returns a processor with a new three-channel
    pixel, bound to the colour-matching data resampled for that slice, and
    leaves the pipeline as it is; the index counted from the end gives the
    same processor; an index outside the list raises [IndexError]; on a
    pipeline that was only constructed it raises [TypeError]. *)
Theorem pixel_processor_bound_to_slice
    (p : Pipeline) (w : World) px n (slices : list SpectralSlice)
    (Pixel : Type) (Pixel_new : nat -> Pixel) (i : nat) (slice : SpectralSlice) :
  nth_error slices i = Some slice ->
  let s := snd (initialise clock resample_ciexyz error_map px n slices (p, w)) in
  let processor :=
    Processor.__init__ Pixel_new
      (resample_ciexyz (min_wavelength slice) (max_wavelength slice)
         (num_samples slice)) in
  pixel_processor Pixel_new (Z.of_nat i) s = (Ok processor, s)
  /\ pixel_processor Pixel_new (Z.of_nat i - Z.of_nat (length slices)) s
     = (Ok processor, s)
  /\ (forall k, (k < - Z.of_nat (length slices) \/ Z.of_nat (length slices) <= k)%Z ->
        pixel_processor Pixel_new k s = (Raise IndexError, s))
  /\ (forall sens dp interval acc k,
        pixel_processor Pixel_new k (__init__ CMF sens dp interval acc, w)
        = (Raise TypeError, (__init__ CMF sens dp interval acc, w))).
Proof.
  intros Hnth s processor.
  set (cmfs := map (fun sl => resample_ciexyz (min_wavelength sl)
                                (max_wavelength sl) (num_samples sl)) slices).
  assert (Hres : _resampled_xyz (fst s) = Some cmfs).
  { subst s. rewrite initialise_unfold.
    apply (@start_display_keeps_resampled_xyz (Some cmfs)
             (initialised resample_ciexyz px n slices p, initialised_world px p w)).
    reflexivity. }
  assert (Hlen : length cmfs = length slices) by apply length_map.
  assert (Hi : (i < length slices)%nat).
  { apply nth_error_Some. rewrite Hnth. discriminate. }
  assert (Hget : nth_error cmfs i
                 = Some (resample_ciexyz (min_wavelength slice)
                           (max_wavelength slice) (num_samples slice))).
  { subst cmfs. rewrite nth_error_map, Hnth. reflexivity. }
  split; [| split; [| split]].
  - unfold pixel_processor, read_attr, list_getitem. rewrite Hres, Hlen.
    rewrite np_index_of_nat by assumption. rewrite Hget. reflexivity.
  - unfold pixel_processor, read_attr, list_getitem. rewrite Hres, Hlen.
    rewrite np_index_negative by assumption. rewrite Hget. reflexivity.
  - intros k Hk. unfold pixel_processor, read_attr, list_getitem.
    rewrite Hres, Hlen. rewrite np_index_none by assumption. reflexivity.
  - intros. reflexivity.
Qed.

(** *** What the working accumulator holds *)

Lemma item_accumulated (a : ndarray Q) i j t i' j' k :
  (k < 3)%nat ->
  item (accumulated a i j t) i' j' k
  = if ((i' =? i) && (j' =? j))%nat then item a i' j' k + chan k t
    else item a i' j' k.
Proof.
  intros Hk.
  destruct ((i' =? i) && (j' =? j))%nat eqn:E.
  - apply andb_prop in E. destruct E as [Ei Ej].
    apply Nat.eqb_eq in Ei, Ej. subst i' j'.
    destruct (accumulated_at a i j t) as (H0 & H1 & H2).
    destruct k as [| [| [| k]]]; [exact H0 | exact H1 | exact H2 | lia].
  - apply accumulated_other. intros H. inversion H; subst.
    rewrite !Nat.eqb_refl in E. discriminate.
Qed.

(** One [update] of a render pass, with what it leaves in the working
    accumulator. *)
Lemma update_working (p : Pipeline) (w : World) px x y mean variance slice_id wm wv :
  ready px p -> in_grid px (x, y) ->
  _working_mean p = Some wm -> _working_variance p = Some wv ->
  exists p' w',
    update clock ciexyz_to_srgb error_map (x, y) (mean, variance) slice_id (p, w)
    = (Ok tt, (p', w'))
    /\ ready px p'
    /\ _working_mean p' = Some (accumulated wm (Z.to_nat x) (Z.to_nat y) mean)
    /\ _working_variance p'
       = Some (accumulated wv (Z.to_nat x) (Z.to_nat y) variance).
Proof.
  intros Hr Hg Hm Hv.
  destruct (@update_ready clock CMF ciexyz_to_srgb error_map p w px x y mean
              variance slice_id Hr Hg) as (p' & w' & E & Hr' & _).
  exists p', w'. split; [exact E |]. split; [exact Hr' |].
  assert (Hshapes : shape wm = (fst px, snd px, 3%nat)
                    /\ shape wv = (fst px, snd px, 3%nat)).
  { destruct Hr as (f & a & wm0 & wv0 & _ & _ & Hm0 & Hv0 & _ & _ & _ & Hsm & Hsv).
    rewrite Hm in Hm0. rewrite Hv in Hv0. inversion Hm0. inversion Hv0.
    subst. split; assumption. }
  destruct Hshapes as [Hsm Hsv].
  rewrite (@update_accumulates clock CMF ciexyz_to_srgb error_map p w px x y mean
             variance slice_id wm wv Hm Hv Hsm Hsv Hg) in E.
  match type of E with
  | _update_display _ _ _ (?p1, _) = _ =>
      destruct (@update_display_keeps_statistics clock CMF ciexyz_to_srgb
                  error_map (xyz_frame p1) (_working_mean p1)
                  (_working_variance p1) (p1, w)
                  (conj eq_refl (conj eq_refl eq_refl))) as (_ & Km & Kv)
  end.
  rewrite E in Km, Kv. split; [exact Km | exact Kv].
Qed.

Lemma updates_working (us : list update_call) :
  forall (p : Pipeline) (w : World) px wm wv,
    ready px p -> Forall (fun u => in_grid px (fst (fst u))) us ->
    _working_mean p = Some wm -> _working_variance p = Some wv ->
    exists p' w' wm' wv',
      updates clock ciexyz_to_srgb error_map us (p, w) = (Ok tt, (p', w'))
      /\ ready px p'
      /\ _working_mean p' = Some wm' /\ _working_variance p' = Some wv'
      /\ forall i j k, (k < 3)%nat ->
           item wm' i j k = accumulate_calls fst i j k us (item wm i j k)
           /\ item wv' i j k = accumulate_calls snd i j k us (item wv i j k).
Proof.
  induction us as [| [[[x y] [mean variance]] slice_id] us IH];
    intros p w px wm wv Hr Hus Hm Hv.
  - exists p, w, wm, wv. repeat split; try assumption; reflexivity.
  - inversion Hus as [| u us' Hu Hrest]; subst. simpl in Hu.
    destruct (@update_working p w px x y mean variance slice_id wm wv Hr Hu Hm Hv)
      as (p1 & w1 & E1 & Hr1 & Hm1 & Hv1).
    destruct (IH p1 w1 px _ _ Hr1 Hrest Hm1 Hv1)
      as (p2 & w2 & wm2 & wv2 & E2 & Hr2 & Hm2 & Hv2 & Hitems).
    exists p2, w2, wm2, wv2.
    split; [unfold updates; simpl; erewrite bind_ok by exact E1; exact E2 |].
    split; [exact Hr2 |]. split; [exact Hm2 |]. split; [exact Hv2 |].
    intros i j k Hk. destruct (Hitems i j k Hk) as [Hi1 Hi2].
    rewrite Hi1, Hi2. rewrite !item_accumulated by assumption.
    rewrite (Nat.eqb_sym i (Z.to_nat x)), (Nat.eqb_sym j (Z.to_nat y)).
    unfold accumulate_calls. simpl. split; reflexivity.
Qed.

(** X5. After [initialise] and any [update] calls at pixels of the grid, the
    working accumulator holds, at every channel of every pixel, the sum (taken
    in call order, from zero) of the packed means, respectively variances, of
    the calls addressed to that pixel: nothing is lost, and calls addressed to
    other pixels leave the entry alone. *)
Theorem working_accumulator_totals
    (p0 : Pipeline) (w0 : World) px n slices (us : list update_call) :
  coherent p0 ->
  Forall (fun u => in_grid px (fst (fst u))) us ->
  exists p w wm wv,
    (initialise clock resample_ciexyz error_map px n slices ;;;
     updates clock ciexyz_to_srgb error_map us) (p0, w0) = (Ok tt, (p, w))
    /\ _working_mean p = Some wm /\ _working_variance p = Some wv
    /\ forall i j k, (k < 3)%nat ->
         item wm i j k = accumulate_calls fst i j k us 0
         /\ item wv i j k = accumulate_calls snd i j k us 0.
Proof.
  intros Hc Hus.
  destruct (@initialise_ready clock CMF resample_ciexyz error_map p0 w0 px n
              slices Hc) as (p1 & w1 & E1 & Hr1 & _ & _ & _ & Hm1 & Hv1).
  destruct (@updates_working us p1 w1 px _ _ Hr1 Hus Hm1 Hv1)
    as (p2 & w2 & wm & wv & E2 & _ & Hm & Hv & Hitems).
  exists p2, w2, wm, wv.
  split; [erewrite bind_ok by exact E1; exact E2 |].
  split; [exact Hm |]. split; [exact Hv |]. exact Hitems.
Qed.

Lemma accumulate_calls_results_at sel i j k (us : list update_call) :
  forall a,
    accumulate_calls sel i j k us a
    = fold_left (fun acc t => acc + chan k (sel t)) (results_at i j us) a.
Proof.
  unfold accumulate_calls, results_at, addressed_to.
  induction us as [| u us IH]; intros a; [reflexivity |].
  simpl.
  destruct ((Z.to_nat (fst (fst (fst u))) =? i)
            && (Z.to_nat (snd (fst (fst u))) =? j))%nat; simpl; apply IH.
Qed.

(** X6. The interleaving of the [update] calls of a render pass does not
    matter: two passes in which every pixel receives the same packed results
    in the same order, however the calls to different pixels are interleaved
    and whatever their slice numbers, end with the same working mean and
    variance at every channel of every pixel. *)
Theorem working_accumulator_interleaving_independent
    (p0 : Pipeline) (w0 : World) px n slices (us us' : list update_call) :
  coherent p0 ->
  Forall (fun u => in_grid px (fst (fst u))) us ->
  Forall (fun u => in_grid px (fst (fst u))) us' ->
  (forall i j, results_at i j us = results_at i j us') ->
  let s := snd ((initialise clock resample_ciexyz error_map px n slices ;;;
                 updates clock ciexyz_to_srgb error_map us) (p0, w0)) in
  let s' := snd ((initialise clock resample_ciexyz error_map px n slices ;;;
                  updates clock ciexyz_to_srgb error_map us') (p0, w0)) in
  exists wm wv wm' wv',
    _working_mean (fst s) = Some wm /\ _working_variance (fst s) = Some wv
    /\ _working_mean (fst s') = Some wm' /\ _working_variance (fst s') = Some wv'
    /\ forall i j k, (k < 3)%nat ->
         item wm i j k = item wm' i j k /\ item wv i j k = item wv' i j k.
Proof.
  intros Hc Hus Hus' Hsame s s'.
  destruct (@initialise_ready clock CMF resample_ciexyz error_map p0 w0 px n
              slices Hc) as (p1 & w1 & E1 & Hr1 & _ & _ & _ & Hm1 & Hv1).
  destruct (@updates_working us p1 w1 px _ _ Hr1 Hus Hm1 Hv1)
    as (p2 & w2 & wm & wv & E2 & _ & Hm & Hv & Hitems).
  destruct (@updates_working us' p1 w1 px _ _ Hr1 Hus' Hm1 Hv1)
    as (p2' & w2' & wm' & wv' & E2' & _ & Hm' & Hv' & Hitems').
  assert (Es : (initialise clock resample_ciexyz error_map px n slices ;;;
                updates clock ciexyz_to_srgb error_map us) (p0, w0)
               = (Ok tt, (p2, w2)))
    by (erewrite bind_ok by exact E1; exact E2).
  assert (Es' : (initialise clock resample_ciexyz error_map px n slices ;;;
                 updates clock ciexyz_to_srgb error_map us') (p0, w0)
                = (Ok tt, (p2', w2')))
    by (erewrite bind_ok by exact E1; exact E2').
  exists wm, wv, wm', wv'. subst s s'. rewrite Es, Es'. cbn [fst snd].
  split; [exact Hm |]. split; [exact Hv |].
  split; [exact Hm' |]. split; [exact Hv' |].
  intros i j k Hk.
  destruct (Hitems i j k Hk) as [-> ->].
  destruct (Hitems' i j k Hk) as [-> ->].
  rewrite !accumulate_calls_results_at, (Hsame i j). split; reflexivity.
Qed.

(** *** The outside world *)

Lemma update_display_disabled (w : World) :
  preserves (fun s : State => display_progress (fst s) = false /\ snd s = w)
            (_update_display clock ciexyz_to_srgb error_map).
Proof.
  intros [p w1] [Hdp Hw]. simpl in Hdp, Hw. subst w1.
  rewrite update_display_quiet.
  2: { intros [H _]. congruence. }
  simpl. rewrite Hdp. split; [reflexivity | destruct w; reflexivity].
Qed.

Lemma final_display_disabled (w : World) :
  preserves (fun s : State => display_progress (fst s) = false /\ snd s = w)
            (dp <- getattr (@display_progress CMF) ;;
             if dp then display error_map else ret tt).
Proof.
  intros [p w1] [Hdp Hw]. simpl in Hdp, Hw. subst w1.
  unfold bind, getattr. simpl. rewrite Hdp. simpl. split; [exact Hdp | reflexivity].
Qed.

(** X7. With progress display disabled, [update] and [finalise] make no call
    to the outside world at all, whatever state the pipeline is in and
    whether they return or raise: nothing is shown or printed and the clock is
    never read; [initialise] then only constructs the frame buffer when it has
    to. *)
Theorem no_outside_call_without_progress_display (p : Pipeline) (w : World) :
  display_progress p = false ->
  (forall pixel_id packed_result slice_id,
     snd (snd (update clock ciexyz_to_srgb error_map pixel_id packed_result
                 slice_id (p, w))) = w)
  /\ snd (snd (finalise ciexyz_to_srgb error_map (p, w))) = w
  /\ (forall px n slices,
        snd (snd (initialise clock resample_ciexyz error_map px n slices (p, w)))
        = if must_allocate p px
          then mk_World (ticks w) (trace w ++ [EvFrame2D px 3])
          else w).
Proof.
  intros Hdp. split; [| split].
  - intros [x y] [mean variance] slice_id.
    assert (K : preserves (fun s : State => display_progress (fst s) = false
                                            /\ snd s = w)
                  (update clock ciexyz_to_srgb error_map (x, y) (mean, variance)
                     slice_id)).
    { unfold update, on__working_mean, on__working_variance.
      repeat (apply preserves_bind;
              [apply preserves_on_attr; intros ? ? ? ? H ?; exact H | intros _]).
      apply update_display_disabled. }
    apply (K (p, w)). split; [exact Hdp | reflexivity].
  - assert (K : preserves (fun s : State => display_progress (fst s) = false
                                            /\ snd s = w)
                  (finalise ciexyz_to_srgb error_map)).
    { unfold finalise.
      apply preserves_bind; [apply preserves_read_attr | intros px].
      apply preserves_bind.
      { unfold finalise_channel, frame_pixels, on_xyz_frame.
        frame_steps; simpl in *; assumption. }
      intros _. apply preserves_bind.
      { unfold _generate_srgb_frame, srgb_pixel, on_rgb_frame.
        frame_steps; simpl in *; assumption. }
      intros _. apply final_display_disabled. }
    apply (K (p, w)). split; [exact Hdp | reflexivity].
  - intros px n slices. rewrite initialise_unfold.
    unfold _start_display. unfold bind at 1. cbn [setattr fst snd].
    unfold bind, getattr. cbn [fst snd].
    replace (display_progress
               (set__display_timer 0 (initialised resample_ciexyz px n slices p)))
      with false.
    2: { unfold initialised. destruct (must_allocate p px); simpl; congruence. }
    reflexivity.
Qed.

(** X8. The live refresh of an [update] never shows what the render pass has
    accumulated: [update] does not touch the frame buffer, and the refreshed
    display buffer holds at every pixel the colour resolved from the frame
    buffer as it was before the call, whatever the packed result and the
    contents of the working accumulator. *)
Theorem live_refresh_shows_frame_buffer
    (p : Pipeline) (w : World) px (x y : Z) (mean variance : Q * Q * Q)
    (slice_id : Z) (f : Frame2D) :
  ready px p -> in_grid px (x, y) -> xyz_frame p = Some f ->
  display_progress p = true ->
  display_update_time p < clock (ticks w) - _display_timer p ->
  let s' := snd (update clock ciexyz_to_srgb error_map (x, y) (mean, variance)
                   slice_id (p, w)) in
  exists a',
    rgb_frame (fst s') = Some a'
    /\ xyz_frame (fst s') = Some f
    /\ (forall i j, (i < fst px)%nat -> (j < snd px)%nat ->
          rgb_at a' i j = resolved ciexyz_to_srgb (sensitivity p) f i j)
    /\ trace (snd s')
       = trace w ++ [EvPrint "RGBPipeline2D updating display...";
                     EvImshowRGB (np_transpose_102 a');
                     EvImshowError (error_map f); EvShow].
Proof.
  intros (f0 & a & wm & wv & Hf0 & Ha & Hm & Hv & Hpx & Hwf & Hsa & Hsm & Hsv)
    Hg Hf Hdp Hdue s'.
  assert (f0 = f) by congruence. subst f0.
  destruct Hwf as (Hsf & _). rewrite Hpx in Hsf.
  subst s'.
  rewrite (@update_accumulates clock CMF ciexyz_to_srgb error_map p w px x y mean
             variance slice_id wm wv Hm Hv Hsm Hsv Hg).
  match goal with
  | |- context [_update_display _ _ _ (?p1, w)] =>
      destruct (@update_display_refresh clock CMF ciexyz_to_srgb error_map p1 w
                  f a (fst px) (snd px) Hdp Hdue Hf Ha Hsf Hsa)
        as (a' & E & _ & Hrgb)
  end.
  exists a'. rewrite E. cbn [fst snd trace].
  split; [reflexivity |]. split; [exact Hf |]. split; [exact Hrgb | reflexivity].
Qed.

(** X9. [_generate_srgb_frame] overwrites the whole display buffer: two
    pipelines that hold the same frame buffer and sensitivity end with the
    same colour at every pixel, whatever their display buffers held before;
    the call changes no other attribute and makes no outside call. *)
Theorem generate_srgb_frame_overwrites
    (p1 p2 : Pipeline) (w1 w2 : World) (f : Frame2D) (a1 a2 : ndarray Q)
    (nx ny : nat) :
  xyz_frame p1 = Some f -> xyz_frame p2 = Some f ->
  sensitivity p1 = sensitivity p2 ->
  rgb_frame p1 = Some a1 -> rgb_frame p2 = Some a2 ->
  shape (mean f) = (nx, ny, 3%nat) ->
  shape a1 = (nx, ny, 3%nat) -> shape a2 = (nx, ny, 3%nat) ->
  exists a1' a2',
    _generate_srgb_frame ciexyz_to_srgb (p1, w1)
    = (Ok tt, (set_rgb_frame (Some a1') p1, w1))
    /\ _generate_srgb_frame ciexyz_to_srgb (p2, w2)
       = (Ok tt, (set_rgb_frame (Some a2') p2, w2))
    /\ shape a1' = (nx, ny, 3%nat) /\ shape a2' = (nx, ny, 3%nat)
    /\ forall i j, (i < nx)%nat -> (j < ny)%nat ->
         rgb_at a1' i j = rgb_at a2' i j
         /\ rgb_at a1' i j = resolved ciexyz_to_srgb (sensitivity p1) f i j.
Proof.
  intros Hf1 Hf2 Hs Ha1 Ha2 Hsf Hs1 Hs2.
  destruct (@generate_srgb_spec CMF ciexyz_to_srgb p1 w1 f a1 nx ny Hf1 Ha1 Hsf Hs1)
    as (a1' & E1 & Hs1' & H1).
  destruct (@generate_srgb_spec CMF ciexyz_to_srgb p2 w2 f a2 nx ny Hf2 Ha2 Hsf Hs2)
    as (a2' & E2 & Hs2' & H2).
  exists a1', a2'. split; [exact E1 |]. split; [exact E2 |].
  split; [exact Hs1' |]. split; [exact Hs2' |].
  intros i j Hi Hj. split; [| apply H1; assumption].
  rewrite (H1 i j Hi Hj), (H2 i j Hi Hj), Hs. reflexivity.
Qed.

(** X10. [finalise] does not clear what it merges: the working accumulator and
    the recorded [pixel_samples] are left as they are, so a second [finalise]
    without a new [initialise] returns normally and merges the same group into
    every statistic once more. *)
Theorem finalise_twice_merges_twice
    (p : Pipeline) (w : World) px (f : Frame2D) (wm wv : ndarray Q) :
  ready px p -> xyz_frame p = Some f ->
  _working_mean p = Some wm -> _working_variance p = Some wv ->
  let r1 := finalise ciexyz_to_srgb error_map (p, w) in
  let r2 := finalise ciexyz_to_srgb error_map (snd r1) in
  fst r1 = Ok tt
  /\ _working_mean (fst (snd r1)) = Some wm
  /\ _working_variance (fst (snd r1)) = Some wv
  /\ _samples (fst (snd r1)) = _samples p
  /\ fst r2 = Ok tt
  /\ exists f2,
       xyz_frame (fst (snd r2)) = Some f2
       /\ forall i j k, (i < fst px)%nat -> (j < snd px)%nat -> (k < 3)%nat ->
            stat_at f2 i j k
            = pooled_merge
                (pooled_merge (stat_at f i j k) (item wm i j k) (item wv i j k)
                   (_samples p))
                (item wm i j k) (item wv i j k) (_samples p).
Proof.
  intros Hr Hf Hm Hv r1 r2.
  destruct (@finalise_spec CMF ciexyz_to_srgb error_map p w px f wm wv Hr Hf Hm Hv)
    as (f1 & a1 & E1 & Hpx1 & Hwf1 & Hsa1 & Hst1 & _).
  subst r2 r1. rewrite E1. cbn [fst snd].
  set (p1 := set_rgb_frame (Some a1) (set_xyz_frame (Some f1) p)).
  set (w1 := if display_progress p then _ else w).
  assert (Hr1 : ready px p1).
  { destruct Hr as (f0 & a0 & wm0 & wv0 & _ & _ & Hm0 & Hv0 & _ & _ & _ & Hsm & Hsv).
    assert (wm0 = wm) by congruence. assert (wv0 = wv) by congruence.
    subst wm0 wv0. exists f1, a1, wm, wv.
    split; [reflexivity |]. split; [reflexivity |]. split; [exact Hm |].
    split; [exact Hv |]. split; [exact Hpx1 |]. split; [exact Hwf1 |].
    split; [exact Hsa1 |]. split; [exact Hsm | exact Hsv]. }
  destruct (@finalise_spec CMF ciexyz_to_srgb error_map p1 w1 px f1 wm wv Hr1
              eq_refl Hm Hv) as (f2 & a2 & E2 & _ & _ & _ & Hst2 & _).
  rewrite E2. cbn [fst snd].
  split; [reflexivity |]. split; [exact Hm |]. split; [exact Hv |].
  split; [reflexivity |]. split; [reflexivity |].
  exists f2. split; [reflexivity |].
  intros i j k Hi Hj Hk. rewrite (Hst2 i j k Hi Hj Hk), (Hst1 i j k Hi Hj Hk).
  reflexivity.
Qed.

End PipelineFurther.

(** ** The camera *)

Lemma Qle_bool_false (q : Q) : 0 < q -> Qle_bool q 0 = false.
Proof.
  intros Hq. destruct (Qle_bool q 0) eqn:E; [| reflexivity].
  apply Qle_bool_iff in E. exfalso. apply (Qlt_not_le _ _ Hq E).
Qed.

(** X11. Setting a positive width on a camera whose first pixel dimension is
    not zero returns normally; the getter then returns that width, the pixel
    dimensions, the sample count, the [sub_sample] flag and both generators are
    as before, and the derived geometry agrees with the new width. *)
Theorem width_setter_round_trip (c : OrthographicCamera) (width : Q) :
  0 < width -> fst (_pixels c) <> 0%nat ->
  exists c',
    width_setter width c = (Ok tt, c')
    /\ width_getter c' = width
    /\ pixels_getter c' = pixels_getter c
    /\ pixel_samples c' = pixel_samples c
    /\ sub_sample c' = sub_sample c
    /\ _point_generator c' = _point_generator c
    /\ _vector_generator c' = _vector_generator c
    /\ geometry_consistent c'.
Proof.
  intros Hw Hnz. rewrite width_setter_spec, (Qle_bool_false Hw).
  rewrite update_image_geometry_spec. cbn [_pixels set__width].
  apply Nat.eqb_neq in Hnz. rewrite Hnz.
  eexists. split; [reflexivity |]. repeat split.
Qed.

Section PixelsSetter.

Variable valid_pixels : nat * nat -> bool.

(** X12. Setting pixel dimensions that the base class accepts and whose first
    component is not zero returns normally; the getter then returns them, the
    width and everything else the camera holds are as before, and the derived
    geometry agrees with the new dimensions.  Dimensions that the base class
    rejects leave the camera as it was. *)
Theorem pixels_setter_round_trip (c : OrthographicCamera) (px : nat * nat) :
  valid_pixels px = true -> fst px <> 0%nat ->
  (exists c',
     pixels_setter valid_pixels px c = (Ok tt, c')
     /\ pixels_getter c' = px
     /\ width_getter c' = width_getter c
     /\ pixel_samples c' = pixel_samples c
     /\ sub_sample c' = sub_sample c
     /\ _point_generator c' = _point_generator c
     /\ _vector_generator c' = _vector_generator c
     /\ geometry_consistent c')
  /\ forall px', valid_pixels px' = false ->
       exists msg, pixels_setter valid_pixels px' c = (Raise (ValueError msg), c).
Proof.
  intros Hv Hnz. split.
  - rewrite pixels_setter_spec, Hv.
    rewrite update_image_geometry_spec. cbn [_pixels set__pixels].
    apply Nat.eqb_neq in Hnz. rewrite Hnz.
    eexists. split; [reflexivity |]. repeat split.
  - intros px' Hr. rewrite pixels_setter_spec, Hr. eexists. reflexivity.
Qed.

(** X13. The setters are not atomic when the division by the first pixel
    dimension fails.  If the base class lets through dimensions whose first
    component is zero, the [pixels] setter raises [ZeroDivisionError] after the
    dimensions are stored: the getter returns the new dimensions while pitch
    and origin offset are the old ones.  On such a camera the [width] setter
    likewise raises after storing the new width. *)
Theorem setters_store_before_division_fails
    (c : OrthographicCamera) (px : nat * nat) (width : Q) :
  valid_pixels px = true -> fst px = 0%nat -> 0 < width ->
  let r := pixels_setter valid_pixels px c in
  let r' := width_setter width (snd r) in
  fst r = Raise ZeroDivisionError
  /\ pixels_getter (snd r) = px
  /\ image_delta (snd r) = image_delta c
  /\ image_start_x (snd r) = image_start_x c
  /\ image_start_y (snd r) = image_start_y c
  /\ fst r' = Raise ZeroDivisionError
  /\ width_getter (snd r') = width
  /\ image_delta (snd r') = image_delta c.
Proof.
  intros Hv Hz Hw r r'. subst r' r.
  rewrite pixels_setter_spec, Hv.
  rewrite update_image_geometry_spec. cbn [_pixels set__pixels].
  rewrite Hz. cbn [Nat.eqb fst snd].
  rewrite width_setter_spec, (Qle_bool_false Hw).
  rewrite update_image_geometry_spec. cbn [_pixels set__width set__pixels].
  rewrite Hz. cbn [Nat.eqb fst snd].
  repeat split.
Qed.

End PixelsSetter.

Lemma built_rays_same_up_to_origin_xy {RayParams} tx ty tx' ty' tz
    (template : Ray RayParams) pairs :
  forall next,
    Forall2 same_up_to_origin_xy
            (built_rays tx ty tz template pairs next)
            (built_rays tx' ty' tz template pairs next).
Proof.
  induction pairs as [| [o d] rest IH]; intros next; simpl; constructor.
  - unfold same_up_to_origin_xy. simpl. repeat split.
  - apply IH.
Qed.

Lemma built_rays_same_origin_x {RayParams} tx ty ty' tz
    (template : Ray RayParams) pairs :
  forall next,
    Forall2 (fun a b => pt_x (origin b) = pt_x (origin a))
            (built_rays tx ty tz template pairs next)
            (built_rays tx ty' tz template pairs next).
Proof.
  induction pairs as [| [o d] rest IH]; intros next; simpl; constructor;
    [reflexivity | apply IH].
Qed.

Lemma built_rays_same_origin_y {RayParams} tx tx' ty tz
    (template : Ray RayParams) pairs :
  forall next,
    Forall2 (fun a b => pt_y (origin b) = pt_y (origin a))
            (built_rays tx ty tz template pairs next)
            (built_rays tx' ty tz template pairs next).
Proof.
  induction pairs as [| [o d] rest IH]; intros next; simpl; constructor;
    [reflexivity | apply IH].
Qed.

Section RayGenerationFurther.

Variable RNG : Type.
Variable Rectangle_call : Rectangle -> nat -> RNG -> list Point * RNG.
Variable SingleRay_call : SingleRay -> nat -> RNG -> list Vector * RNG.
Variable RayParams : Type.

(** X15. The pixel index decides nothing but where the origins lie in the
    plane: from the same random and allocation state, the batches for any two
    pixel indices have, ray by ray, the same object identities, the same
    direction, the same parameters and the same height of the origin, and the
    two calls leave the same state behind; for two pixels of the same column
    the origins also have the same x, for two pixels of the same row the same
    y. *)
Theorem pixel_index_moves_only_origins
    (c : OrthographicCamera) (ix iy ix' iy' : Z) (template : Ray RayParams)
    (w : CamWorld RNG) :
  exists rays rays' w',
    _generate_rays Rectangle_call SingleRay_call c ix iy template w
    = (Ok rays, w')
    /\ _generate_rays Rectangle_call SingleRay_call c ix' iy' template w
       = (Ok rays', w')
    /\ Forall2 same_up_to_origin_xy rays rays'
    /\ (ix' = ix ->
        Forall2 (fun a b => pt_x (origin b) = pt_x (origin a)) rays rays')
    /\ (iy' = iy ->
        Forall2 (fun a b => pt_y (origin b) = pt_y (origin a)) rays rays').
Proof.
  rewrite !generate_rays_spec. eexists _, _, _.
  split; [reflexivity |]. split; [reflexivity |].
  split; [apply built_rays_same_up_to_origin_xy |].
  split; intros ->; [apply built_rays_same_origin_x | apply built_rays_same_origin_y].
Qed.

(** X16. The size of the batch is decided by [zip]: whatever the generators
    return, ray generation returns as many rays as the shorter of the two
    sequences holds, allocates three objects per ray, and leaves the random
    source as the point generator and then the direction generator left it;
    nothing compares the size with [pixel_samples]. *)
Theorem batch_size_is_shorter_generator_output
    (c : OrthographicCamera) (ix iy : Z) (template : Ray RayParams)
    (w : CamWorld RNG) :
  let d1 := Rectangle_call (_point_generator c) (pixel_samples c) (rng w) in
  let d2 := SingleRay_call (_vector_generator c) (pixel_samples c) (snd d1) in
  exists rays w',
    _generate_rays Rectangle_call SingleRay_call c ix iy template w = (Ok rays, w')
    /\ length rays = Nat.min (length (fst d1)) (length (fst d2))
    /\ next_oid w' = (next_oid w + 3 * length rays)%nat
    /\ rng w' = snd d2.
Proof.
  intros d1 d2. rewrite generate_rays_spec. fold d1 d2.
  eexists _, _. split; [reflexivity |].
  rewrite built_rays_length. unfold zip. rewrite length_combine.
  cbn [next_oid rng]. repeat split.
Qed.

End RayGenerationFurther.

(** X17. Construction of the camera returns exactly when the width is positive
    and the first pixel dimension is not zero: a width of zero or less raises
    [ValueError] (whatever the pixel dimensions), and a positive width with a
    first pixel dimension of zero raises [ZeroDivisionError].  The camera
    constructed holds the arguments, geometry that agrees with them, and a
    point generator whose footprint is one pixel pitch in both axes. *)
Theorem construction_outcomes (px : nat * nat) (width : Q) (n : nat) (sub : bool) :
  let r := OrthographicCamera___init__ px width n sub in
  (width <= 0 -> exists msg, fst r = Raise (ValueError msg))
  /\ (0 < width -> fst px = 0%nat -> fst r = Raise ZeroDivisionError)
  /\ (0 < width -> fst px <> 0%nat ->
      exists c,
        r = (Ok c, c)
        /\ width_getter c = width /\ pixels_getter c = px
        /\ pixel_samples c = n /\ sub_sample c = sub
        /\ geometry_consistent c
        /\ _point_generator c = mk_Rectangle (image_delta c) (image_delta c)
        /\ _vector_generator c = mk_SingleRay).
Proof.
  intros r. subst r. split; [| split].
  - intros Hle. apply Qle_bool_iff in Hle.
    unfold OrthographicCamera___init__.
    unfold bind at 1. cbn [modify].
    unfold bind at 1. rewrite width_setter_spec, Hle. eexists. reflexivity.
  - intros Hw Hz. unfold OrthographicCamera___init__.
    unfold bind at 1. cbn [modify].
    unfold bind at 1. rewrite width_setter_spec, (Qle_bool_false Hw).
    rewrite update_image_geometry_spec. cbn [_pixels set__width set_sub_sample
      Camera___init__]. rewrite Hz. reflexivity.
  - intros Hw Hnz. unfold OrthographicCamera___init__.
    unfold bind at 1. cbn [modify].
    unfold bind at 1. rewrite width_setter_spec, (Qle_bool_false Hw).
    rewrite update_image_geometry_spec. cbn [_pixels set__width set_sub_sample
      Camera___init__].
    apply Nat.eqb_neq in Hnz. rewrite Hnz.
    unfold bind at 1. rewrite update_image_geometry_spec.
    cbn [_pixels set_geometry set__width set_sub_sample Camera___init__].
    rewrite Hnz.
    eexists. split; [reflexivity |]. repeat split.
Qed.

(** ** The further properties on examples *)

Lemma pixel_processor_bound_to_slice_witness :
  let slices := [mk_SpectralSlice 375 500 10; mk_SpectralSlice 500 740 20] in
  let s := snd (initialise Fixture.clock Fixture.resample_ciexyz Fixture.error_map
                  (2, 2)%nat 4 slices
                  (__init__ (Q * Q * Z) 1 true 5 false, Fixture.world0)) in
  nth_error slices 1 = Some (mk_SpectralSlice 500 740 20)
  /\ fst (pixel_processor (fun _ : nat => tt) (-1) s)
     = Ok (Processor.__init__ (fun _ : nat => tt) (500, 740, 20%Z)).
Proof.
  intros slices s.
  assert (H : nth_error slices 1 = Some (mk_SpectralSlice 500 740 20))
    by reflexivity.
  split; [exact H |].
  destruct (pixel_processor_bound_to_slice Fixture.clock Fixture.resample_ciexyz
              Fixture.error_map (__init__ (Q * Q * Z) 1 true 5 false)
              Fixture.world0 (2, 2)%nat 4 slices (fun _ : nat => tt) 1 H)
    as (_ & E & _).
  exact (f_equal fst E).
Defined.

Lemma update_finalise_before_initialise_witness :
  let p := __init__ (Q * Q * Z) 1 true 5 false in
  _working_mean p = None /\ xyz_frame p = None
  /\ finalise Fixture.ciexyz_to_srgb Fixture.error_map (p, Fixture.world0)
     = (Raise AttributeError, (p, Fixture.world0)).
Proof.
  intros p. split; [reflexivity |]. split; [reflexivity |].
  destruct (update_finalise_before_initialise Fixture.clock Fixture.ciexyz_to_srgb
              Fixture.error_map p Fixture.world0 eq_refl eq_refl) as (_ & K).
  exact K.
Defined.

Lemma update_out_of_range_witness :
  let p := fst (snd (initialise Fixture.clock Fixture.resample_ciexyz
                       Fixture.error_map (2, 2)%nat 4 []
                       (__init__ (Q * Q * Z) 1 true 5 false, Fixture.world0))) in
  let zeros := np_zeros 0 (2, 2, 3)%nat in
  _working_mean p = Some zeros /\ shape zeros = (2, 2, 3)%nat
  /\ update Fixture.clock Fixture.ciexyz_to_srgb Fixture.error_map (1, 2)%Z
       ((1, 2, 3), (0, 0, 0)) 0 (p, Fixture.world0)
     = (Raise IndexError, (p, Fixture.world0)).
Proof.
  intros p zeros. split; [reflexivity |]. split; [reflexivity |].
  apply (update_out_of_range Fixture.clock Fixture.ciexyz_to_srgb Fixture.error_map
           p Fixture.world0 (wm := zeros) (nx := 2) (ny := 2) (x := 1) (y := 2)
           ((1, 2, 3), (0, 0, 0)) 0 eq_refl eq_refl).
  right. right. simpl. lia.
Defined.

Lemma update_negative_index_wraps_witness :
  let p := fst (snd (initialise Fixture.clock Fixture.resample_ciexyz
                       Fixture.error_map (2, 2)%nat 4 []
                       (__init__ (Q * Q * Z) 1 true 5 false, Fixture.world0))) in
  let zeros := np_zeros 0 (2, 2, 3)%nat in
  _working_mean p = Some zeros /\ _working_variance p = Some zeros
  /\ (- Z.of_nat 2 <= -1 < Z.of_nat 2)%Z
  /\ update Fixture.clock Fixture.ciexyz_to_srgb Fixture.error_map (-1, -1)%Z
       ((1, 2, 3), (0, 0, 0)) 0 (p, Fixture.world0)
     = update Fixture.clock Fixture.ciexyz_to_srgb Fixture.error_map (1, 1)%Z
         ((1, 2, 3), (0, 0, 0)) 0 (p, Fixture.world0).
Proof.
  intros p zeros.
  assert (H : (- Z.of_nat 2 <= -1 < Z.of_nat 2)%Z) by (simpl; lia).
  split; [reflexivity |]. split; [reflexivity |]. split; [exact H |].
  apply (update_negative_index_wraps Fixture.clock Fixture.ciexyz_to_srgb
           Fixture.error_map p Fixture.world0 (wm := zeros) (wv := zeros)
           (nx := 2) (ny := 2) (x := -1) (y := -1) ((1, 2, 3), (0, 0, 0)) 0
           eq_refl eq_refl eq_refl eq_refl H H).
Defined.

Lemma working_accumulator_totals_witness :
  let p0 := __init__ (Q * Q * Z) 1 true 5 false in
  let us : list update_call :=
    [((0, 0)%Z, ((1, 2, 3), (0, 0, 0)), 0%Z);
     ((1, 0)%Z, ((4, 5, 6), (1, 1, 1)), 0%Z);
     ((0, 0)%Z, ((7, 8, 9), (2, 2, 2)), 1%Z)] in
  coherent p0
  /\ Forall (fun u => in_grid (2, 1)%nat (fst (fst u))) us
  /\ exists p w wm,
       (initialise Fixture.clock Fixture.resample_ciexyz Fixture.error_map
          (2, 1)%nat 4 [] ;;;
        updates Fixture.clock Fixture.ciexyz_to_srgb Fixture.error_map us)
         (p0, Fixture.world0) = (Ok tt, (p, w))
       /\ _working_mean p = Some wm
       /\ item wm 0 0 1 = 0 + 2 + 8.
Proof.
  intros p0 us.
  assert (H1 : coherent p0) by exact I.
  assert (H2 : Forall (fun u => in_grid (2, 1)%nat (fst (fst u))) us)
    by (repeat constructor; simpl; lia).
  split; [exact H1 |]. split; [exact H2 |].
  destruct (working_accumulator_totals Fixture.clock Fixture.resample_ciexyz
              Fixture.ciexyz_to_srgb Fixture.error_map p0 Fixture.world0 4 []
              H1 H2) as (p & w & wm & wv & E & Hm & _ & Hitems).
  exists p, w, wm. split; [exact E |]. split; [exact Hm |].
  destruct (Hitems 0%nat 0%nat 1%nat) as [H _]; [lia |].
  rewrite H. reflexivity.
Defined.

Lemma working_accumulator_interleaving_independent_witness :
  let p0 := __init__ (Q * Q * Z) 1 true 5 false in
  let u1 : update_call := ((0, 0)%Z, ((1, 2, 3), (0, 0, 0)), 0%Z) in
  let u2 : update_call := ((1, 0)%Z, ((4, 5, 6), (1, 1, 1)), 0%Z) in
  let u3 : update_call := ((0, 0)%Z, ((7, 8, 9), (2, 2, 2)), 1%Z) in
  coherent p0
  /\ Forall (fun u => in_grid (2, 1)%nat (fst (fst u))) [u1; u2; u3]
  /\ Forall (fun u => in_grid (2, 1)%nat (fst (fst u))) [u2; u1; u3]
  /\ (forall i j, results_at i j [u1; u2; u3] = results_at i j [u2; u1; u3])
  /\ exists wm wm',
       _working_mean
         (fst (snd ((initialise Fixture.clock Fixture.resample_ciexyz
                       Fixture.error_map (2, 1)%nat 4 [] ;;;
                     updates Fixture.clock Fixture.ciexyz_to_srgb
                       Fixture.error_map [u1; u2; u3]) (p0, Fixture.world0))))
       = Some wm
       /\ _working_mean
            (fst (snd ((initialise Fixture.clock Fixture.resample_ciexyz
                          Fixture.error_map (2, 1)%nat 4 [] ;;;
                        updates Fixture.clock Fixture.ciexyz_to_srgb
                          Fixture.error_map [u2; u1; u3]) (p0, Fixture.world0))))
          = Some wm'
       /\ item wm 0 0 0 = item wm' 0 0 0.
Proof.
  intros p0 u1 u2 u3.
  assert (H1 : coherent p0) by exact I.
  assert (H2 : Forall (fun u => in_grid (2, 1)%nat (fst (fst u))) [u1; u2; u3])
    by (repeat constructor; simpl; lia).
  assert (H3 : Forall (fun u => in_grid (2, 1)%nat (fst (fst u))) [u2; u1; u3])
    by (repeat constructor; simpl; lia).
  assert (H4 : forall i j,
             results_at i j [u1; u2; u3] = results_at i j [u2; u1; u3]).
  { intros [| [| i]] [| j]; reflexivity. }
  split; [exact H1 |]. split; [exact H2 |]. split; [exact H3 |].
  split; [exact H4 |].
  destruct (working_accumulator_interleaving_independent Fixture.clock
              Fixture.resample_ciexyz Fixture.ciexyz_to_srgb Fixture.error_map
              p0 Fixture.world0 4 [] H1 H2 H3 H4)
    as (wm & wv & wm' & wv' & Hm & _ & Hm' & _ & Hitems).
  exists wm, wm'. split; [exact Hm |]. split; [exact Hm' |].
  apply (Hitems 0%nat 0%nat 0%nat). lia.
Defined.

Lemma no_outside_call_without_progress_display_witness :
  let p := fst (snd (initialise Fixture.clock Fixture.resample_ciexyz
                       Fixture.error_map (2, 2)%nat 4 []
                       (__init__ (Q * Q * Z) 1 false 5 false, Fixture.world0))) in
  display_progress p = false
  /\ snd (snd (finalise Fixture.ciexyz_to_srgb Fixture.error_map
                 (p, Fixture.world0))) = Fixture.world0.
Proof.
  intros p.
  assert (H : display_progress p = false) by reflexivity.
  split; [exact H |].
  destruct (no_outside_call_without_progress_display Fixture.clock
              Fixture.resample_ciexyz Fixture.ciexyz_to_srgb Fixture.error_map
              p Fixture.world0 H) as (_ & K & _).
  exact K.
Defined.

Lemma live_refresh_shows_frame_buffer_witness :
  let p := fst (snd (initialise Fixture.clock Fixture.resample_ciexyz
                       Fixture.error_map (2, 2)%nat 4 []
                       (__init__ (Q * Q * Z) 1 true 5 false, Fixture.world0))) in
  let w := mk_World 2 [] in
  ready (2, 2)%nat p /\ in_grid (2, 2)%nat (1, 0)%Z
  /\ xyz_frame p = Some (Frame2D_new (2, 2)%nat 3)
  /\ display_progress p = true
  /\ display_update_time p < Fixture.clock (ticks w) - _display_timer p
  /\ exists a',
       rgb_frame (fst (snd (update Fixture.clock Fixture.ciexyz_to_srgb
                              Fixture.error_map (1, 0)%Z ((1, 2, 3), (0, 0, 0)) 0
                              (p, w)))) = Some a'
       /\ rgb_at a' 1 0
          = resolved Fixture.ciexyz_to_srgb (sensitivity p)
              (Frame2D_new (2, 2)%nat 3) 1 0.
Proof.
  intros p w.
  assert (H1 : ready (2, 2)%nat p).
  { exists (Frame2D_new (2, 2)%nat 3), (np_zeros 0 (2, 2, 3)%nat),
      (np_zeros 0 (2, 2, 3)%nat), (np_zeros 0 (2, 2, 3)%nat).
    repeat split. }
  assert (H2 : in_grid (2, 2)%nat (1, 0)%Z) by (unfold in_grid; simpl; lia).
  assert (H3 : xyz_frame p = Some (Frame2D_new (2, 2)%nat 3)) by reflexivity.
  assert (H4 : display_progress p = true) by reflexivity.
  assert (H5 : display_update_time p < Fixture.clock (ticks w) - _display_timer p)
    by (vm_compute; reflexivity).
  split; [exact H1 |]. split; [exact H2 |]. split; [exact H3 |].
  split; [exact H4 |]. split; [exact H5 |].
  destruct (live_refresh_shows_frame_buffer Fixture.clock Fixture.ciexyz_to_srgb
              Fixture.error_map w (1, 2, 3) (0, 0, 0) 0 H1 H2 H3 H4 H5)
    as (a' & Ha & _ & Hrgb & _).
  exists a'. split; [exact Ha |]. apply Hrgb; simpl; lia.
Defined.

Lemma generate_srgb_frame_overwrites_witness :
  let p1 := fst (snd (initialise Fixture.clock Fixture.resample_ciexyz
                        Fixture.error_map (2, 2)%nat 4 []
                        (__init__ (Q * Q * Z) 1 true 5 false, Fixture.world0))) in
  let a2 := np_zeros 7 (2, 2, 3)%nat in
  let p2 := set_rgb_frame (Some a2) p1 in
  let f := Frame2D_new (2, 2)%nat 3 in
  xyz_frame p1 = Some f /\ xyz_frame p2 = Some f
  /\ sensitivity p1 = sensitivity p2
  /\ rgb_frame p2 = Some a2
  /\ shape (mean f) = (2, 2, 3)%nat /\ shape a2 = (2, 2, 3)%nat
  /\ exists a1' a2',
       _generate_srgb_frame Fixture.ciexyz_to_srgb (p1, Fixture.world0)
       = (Ok tt, (set_rgb_frame (Some a1') p1, Fixture.world0))
       /\ _generate_srgb_frame Fixture.ciexyz_to_srgb (p2, Fixture.world0)
          = (Ok tt, (set_rgb_frame (Some a2') p2, Fixture.world0))
       /\ rgb_at a1' 1 1 = rgb_at a2' 1 1.
Proof.
  intros p1 a2 p2 f.
  assert (H1 : xyz_frame p1 = Some f) by (vm_compute; reflexivity).
  assert (H2 : xyz_frame p2 = Some f) by (vm_compute; reflexivity).
  assert (H3 : sensitivity p1 = sensitivity p2) by (vm_compute; reflexivity).
  assert (H4 : rgb_frame p1 = Some (np_zeros 0 (2, 2, 3)%nat))
    by (vm_compute; reflexivity).
  assert (H5 : rgb_frame p2 = Some a2) by (vm_compute; reflexivity).
  assert (H6 : shape (mean f) = (2, 2, 3)%nat) by (vm_compute; reflexivity).
  assert (H7 : shape (np_zeros 0 (2, 2, 3)%nat) = (2, 2, 3)%nat)
    by (vm_compute; reflexivity).
  assert (H8 : shape a2 = (2, 2, 3)%nat) by (vm_compute; reflexivity).
  split; [exact H1 |]. split; [exact H2 |]. split; [exact H3 |].
  split; [exact H5 |]. split; [exact H6 |]. split; [exact H8 |].
  destruct (@generate_srgb_frame_overwrites _ Fixture.ciexyz_to_srgb
              p1 p2 Fixture.world0 Fixture.world0
              f (np_zeros 0 (2, 2, 3)%nat) a2 2 2
              H1 H2 H3 H4 H5 H6 H7 H8)
    as (a1' & a2' & E1 & E2 & _ & _ & H).
  exists a1', a2'. split; [exact E1 |]. split; [exact E2 |].
  apply H; lia.
Defined.

Lemma finalise_twice_merges_twice_witness :
  let p := fst (snd (initialise Fixture.clock Fixture.resample_ciexyz
                       Fixture.error_map (2, 2)%nat 4 []
                       (__init__ (Q * Q * Z) 1 true 5 false, Fixture.world0))) in
  let zeros := np_zeros 0 (2, 2, 3)%nat in
  ready (2, 2)%nat p /\ xyz_frame p = Some (Frame2D_new (2, 2)%nat 3)
  /\ _working_mean p = Some zeros /\ _working_variance p = Some zeros
  /\ fst (finalise Fixture.ciexyz_to_srgb Fixture.error_map
            (snd (finalise Fixture.ciexyz_to_srgb Fixture.error_map
                    (p, Fixture.world0)))) = Ok tt.
Proof.
  intros p zeros.
  assert (H1 : ready (2, 2)%nat p).
  { exists (Frame2D_new (2, 2)%nat 3), zeros, zeros, zeros. repeat split. }
  split; [exact H1 |]. split; [reflexivity |]. split; [reflexivity |].
  split; [reflexivity |].
  destruct (finalise_twice_merges_twice Fixture.ciexyz_to_srgb Fixture.error_map
              Fixture.world0 (p := p) (f := Frame2D_new (2, 2)%nat 3)
              (wm := zeros) (wv := zeros) H1 eq_refl eq_refl eq_refl)
    as (_ & _ & _ & _ & K & _).
  exact K.
Defined.

Lemma width_setter_round_trip_witness :
  let c := snd (OrthographicCamera___init__ (2, 2)%nat 1 2 true) in
  0 < 3 /\ fst (_pixels c) <> 0%nat
  /\ exists c', width_setter 3 c = (Ok tt, c') /\ width_getter c' = 3.
Proof.
  intros c.
  assert (H1 : 0 < 3) by reflexivity.
  assert (Hpx : _pixels c = (2, 2)%nat) by (vm_compute; reflexivity).
  assert (H2 : fst (_pixels c) <> 0%nat) by (rewrite Hpx; discriminate).
  split; [exact H1 |]. split; [exact H2 |].
  destruct (width_setter_round_trip c H1 H2) as (c' & E & Hw & _).
  exists c'. split; [exact E | exact Hw].
Defined.

Lemma pixels_setter_round_trip_witness :
  let c := snd (OrthographicCamera___init__ (2, 2)%nat 1 2 true) in
  Fixture.valid_pixels (4, 3)%nat = true /\ fst (4, 3)%nat <> 0%nat
  /\ exists c',
       pixels_setter Fixture.valid_pixels (4, 3)%nat c = (Ok tt, c')
       /\ pixels_getter c' = (4, 3)%nat /\ width_getter c' = width_getter c.
Proof.
  intros c.
  assert (H1 : Fixture.valid_pixels (4, 3)%nat = true) by reflexivity.
  assert (H2 : fst (4, 3)%nat <> 0%nat) by discriminate.
  split; [exact H1 |]. split; [exact H2 |].
  destruct (pixels_setter_round_trip Fixture.valid_pixels c (4, 3)%nat H1 H2)
    as ((c' & E & Hp & Hw & _) & _).
  exists c'. split; [exact E |]. split; [exact Hp | exact Hw].
Defined.

Lemma setters_store_before_division_fails_witness :
  let c := snd (OrthographicCamera___init__ (2, 2)%nat 1 2 true) in
  let lax (px : nat * nat) := true in
  lax (0, 2)%nat = true /\ fst (0, 2)%nat = 0%nat /\ 0 < 3
  /\ fst (pixels_setter lax (0, 2)%nat c) = Raise ZeroDivisionError
  /\ pixels_getter (snd (pixels_setter lax (0, 2)%nat c)) = (0, 2)%nat.
Proof.
  intros c lax.
  assert (H3 : 0 < 3) by reflexivity.
  split; [reflexivity |]. split; [reflexivity |]. split; [exact H3 |].
  destruct (setters_store_before_division_fails lax c (0, 2)%nat
              (eq_refl : lax (0, 2)%nat = true) eq_refl H3) as (K1 & K2 & _).
  split; [exact K1 | exact K2].
Defined.
